(** * FMX beamline startup macros: X-ray utility functions and electrode stepping

    Shallow embedding of the functions [xf_bragg2e], [xf_e2bragg],
    [xf_detZ2recResolution], [xf_recResolution2detZ] and [set_influence] of
    [startup/99-macros.py] and [startup/99-macros_99.py].

    Numbers.  A Python [float] and a [numpy.float64] are both IEEE-754
    doubles.  They are idealised here as extended reals: rounding is
    ignored, a finite double is a real number, and the two infinities and
    NaN are kept because the NumPy operations of the source produce them
    instead of raising.  The model has a single zero, which behaves as
    [+0.0]; where the source's result turns on the sign of a zero, the
    statements below leave the sign of the result open.  What the
    embedding does keep apart is the *kind* of a number:
    dividing two builtin numbers by zero raises [ZeroDivisionError], while
    any division in which a [numpy.float64] takes part follows IEEE-754
    (NumPy only emits a [RuntimeWarning] under its default error state,
    which the startup files never change). *)

From Stdlib Require Import Reals Lra Psatz ZArith List String Bool DecimalString.
Import ListNotations.

Open Scope R_scope.

(** ** Exceptions and the result monad *)

Inductive exn : Type :=
  | ZeroDivisionError
  | IndexError
  | UnboundLocalError.

Inductive result (A : Type) : Type :=
  | Return (a : A)
  | Raise (e : exn).

Arguments Return {A} a.
Arguments Raise {A} e.

Definition bind {A B : Type} (m : result A) (f : A -> result B) : result B :=
  match m with
  | Return a => f a
  | Raise e => Raise e
  end.

Declare Scope result_scope.
Delimit Scope result_scope with result.
Declare Scope io_scope.
Delimit Scope io_scope with io.

Notation "x <- m ;; f" := (bind m (fun x => f))
  (at level 61, m at next level, right associativity) : result_scope.

Open Scope result_scope.

(** ** IEEE-754 doubles, without rounding *)

Module IEEE.

Inductive xreal : Type :=
  | Fin (x : R)
  | PInf
  | NInf
  | NaN.

Definition inf_of_sign (positive : bool) : xreal :=
  if positive then PInf else NInf.

(** Sign of a finite value; the single zero counts as positive. *)
Definition nonneg (x : R) : bool := if Rle_dec 0 x then true else false.

Definition is_zero (a : xreal) : bool :=
  match a with
  | Fin x => if Req_dec_T x 0 then true else false
  | _ => false
  end.

Definition mul (a b : xreal) : xreal :=
  match a, b with
  | NaN, _ | _, NaN => NaN
  | Fin x, Fin y => Fin (x * y)
  | Fin x, PInf | PInf, Fin x =>
      if Req_dec_T x 0 then NaN else inf_of_sign (nonneg x)
  | Fin x, NInf | NInf, Fin x =>
      if Req_dec_T x 0 then NaN else inf_of_sign (negb (nonneg x))
  | PInf, PInf | NInf, NInf => PInf
  | PInf, NInf | NInf, PInf => NInf
  end.

Definition div (a b : xreal) : xreal :=
  match a, b with
  | NaN, _ | _, NaN => NaN
  | Fin x, Fin y =>
      if Req_dec_T y 0
      then (if Req_dec_T x 0 then NaN else inf_of_sign (nonneg x))
      else Fin (x / y)
  | Fin _, PInf | Fin _, NInf => Fin 0
  | PInf, Fin y => inf_of_sign (nonneg y)
  | NInf, Fin y => inf_of_sign (negb (nonneg y))
  | _, _ => NaN
  end.

Definition sqrt (a : xreal) : xreal :=
  match a with
  | Fin x => if Rlt_dec x 0 then NaN else Fin (R_sqrt.sqrt x)
  | PInf => PInf
  | NInf | NaN => NaN
  end.

Definition sin (a : xreal) : xreal :=
  match a with
  | Fin x => Fin (Rtrigo_def.sin x)
  | _ => NaN
  end.

(** The tangent has poles in the reals that no double hits; the model
    returns an infinity there. *)
Definition tan (a : xreal) : xreal :=
  match a with
  | Fin x => if Req_dec_T (cos x) 0 then PInf else Fin (Rtrigo1.tan x)
  | _ => NaN
  end.

Definition arcsin (a : xreal) : xreal :=
  match a with
  | Fin x =>
      if Rlt_dec x (-1) then NaN
      else if Rlt_dec 1 x then NaN
      else Fin (asin x)
  | _ => NaN
  end.

Definition arctan (a : xreal) : xreal :=
  match a with
  | Fin x => Fin (atan x)
  | PInf => Fin (PI / 2)
  | NInf => Fin (- (PI / 2))
  | NaN => NaN
  end.

(** Ordered comparisons; every comparison with NaN is false. *)
Definition ltb (a b : xreal) : bool :=
  match a, b with
  | Fin x, Fin y => if Rlt_dec x y then true else false
  | Fin _, PInf | NInf, Fin _ | NInf, PInf => true
  | _, _ => false
  end.

End IEEE.

Export IEEE(xreal, Fin, PInf, NInf, NaN).

(** ** Python numbers: a double tagged with the type that carries it *)

Inductive kind : Type :=
  | Py   (* builtin int or float *)
  | Np.  (* numpy.float64 *)

Record num : Type := mk_num { nkind : kind; nval : xreal }.

Definition py (x : R) : num := mk_num Py (Fin x).
Definition float64 (v : xreal) : num := mk_num Np v.
Definition of_int (z : Z) : num := py (IZR z).

Definition join (a b : kind) : kind :=
  match a, b with
  | Py, Py => Py
  | _, _ => Np
  end.

Module PyNum.

Definition mul (a b : num) : num :=
  mk_num (join (nkind a) (nkind b)) (IEEE.mul (nval a) (nval b)).

(** [a / b]: builtin numbers raise on a zero divisor, NumPy does not. *)
Definition truediv (a b : num) : result num :=
  match join (nkind a) (nkind b) with
  | Py =>
      if IEEE.is_zero (nval b) then Raise ZeroDivisionError
      else Return (mk_num Py (IEEE.div (nval a) (nval b)))
  | Np => Return (mk_num Np (IEEE.div (nval a) (nval b)))
  end.

Definition gt (a b : num) : bool := IEEE.ltb (nval b) (nval a).
Definition lt (a b : num) : bool := IEEE.ltb (nval a) (nval b).

End PyNum.

(** The NumPy functions used by the macros; each returns a [numpy.float64]. *)
(** NumPy functions on scalars.  [np.sqrt] is applied in the source to a
    Python integer, which NumPy converts to a 64-bit integer when it lies
    between [-2^63] and [2^64 - 1]; for an integer outside this range it
    raises [TypeError], which [sqrt] does not model.  The statements on
    degenerate Miller indices bound the radicand accordingly. *)
Module np.
Definition pi : num := py PI.
Definition sqrt (a : num) : num := float64 (IEEE.sqrt (nval a)).
Definition sin (a : num) : num := float64 (IEEE.sin (nval a)).
Definition tan (a : num) : num := float64 (IEEE.tan (nval a)).
Definition arcsin (a : num) : num := float64 (IEEE.arcsin (nval a)).
Definition arctan (a : num) : num := float64 (IEEE.arctan (nval a)).
End np.

Declare Scope py_scope.
Delimit Scope py_scope with py.
Bind Scope py_scope with num.
Infix "*" := PyNum.mul : py_scope.
Infix ">?" := PyNum.gt (at level 70) : py_scope.
Infix "<?" := PyNum.lt (at level 70) : py_scope.

(** ** X-ray utility functions of [startup/99-macros.py] *)

Module Macros.

(** The source writes [h^2+k^2+l^2].  In Python [^] is bitwise exclusive
    or and binds more loosely than [+], so the expression parses as
    [((h ^ (2+k)) ^ (2+l)) ^ 2]. *)
Definition miller_norm (h k l : Z) : Z :=
  Z.lxor (Z.lxor (Z.lxor h (2 + k)) (2 + l)) 2.

Definition xf_bragg2e (t : num) (h k l : Z) (LN : Z) : result num :=
  let LN := if (LN =? 0)%Z then LN else 1%Z in
  tt <- (if (t >? py 1)%py
         then PyNum.truediv (t * np.pi)%py (py 180)
         else Return t) ;;
  d0 <- PyNum.truediv (py (2 * 5.43102 * (1 - 2.4e-4 * IZR LN)))
                      (np.sqrt (of_int (miller_norm h k l))) ;;
  E <- PyNum.truediv (py 12398.42) (d0 * np.sin tt)%py ;;
  Return E.

Definition xf_e2bragg (E : num) (h k l : Z) : result num :=
  let E := if (E <? py 100)%py then (E * py 1e3)%py else E in
  d0 <- PyNum.truediv (py (2 * 5.43102))
                      (np.sqrt (of_int (miller_norm h k l))) ;;
  q <- PyNum.truediv (py 12398.42) d0 ;;
  q <- PyNum.truediv q E ;;
  t <- PyNum.truediv (np.arcsin q * py 180)%py np.pi ;;
  Return t.

End Macros.

(** ** X-ray utility functions of [startup/99-macros_99.py] *)

Module Macros99.

(** Here the source writes [h**2+k**2+l**2]. *)
Definition miller_norm (h k l : Z) : Z := (h ^ 2 + k ^ 2 + l ^ 2)%Z.

Definition xf_bragg2e (t : num) (h k l : Z) (LN : Z) : result num :=
  let LN := if (LN =? 0)%Z then LN else 1%Z in
  tt <- (if (t >? py 1)%py
         then PyNum.truediv (t * np.pi)%py (py 180)
         else Return t) ;;
  d0 <- PyNum.truediv (py (2 * 5.43102 * (1 - 2.4e-4 * IZR LN)))
                      (np.sqrt (of_int (miller_norm h k l))) ;;
  E <- PyNum.truediv (py 12398.42) (d0 * np.sin tt)%py ;;
  Return E.

Definition xf_e2bragg (E : num) (h k l : Z) : result num :=
  let E := if (E <? py 100)%py then (E * py 1e3)%py else E in
  d0 <- PyNum.truediv (py (2 * 5.43102))
                      (np.sqrt (of_int (miller_norm h k l))) ;;
  q <- PyNum.truediv (py 12398.42) d0 ;;
  q <- PyNum.truediv q E ;;
  t <- PyNum.truediv (np.arcsin q * py 180)%py np.pi ;;
  Return t.

End Macros99.

(** ** The text shared by the two files

    The two definitions of [xf_bragg2e], and the two of [xf_e2bragg], differ
    only in the radicand [n] handed to [np.sqrt].  [e2bragg_eV] is the part
    of [xf_e2bragg] that follows the unit heuristic. *)

Definition bragg2e_of_norm (n : Z) (t : num) (LN : Z) : result num :=
  let LN := if (LN =? 0)%Z then LN else 1%Z in
  tt <- (if (t >? py 1)%py
         then PyNum.truediv (t * np.pi)%py (py 180)
         else Return t) ;;
  d0 <- PyNum.truediv (py (2 * 5.43102 * (1 - 2.4e-4 * IZR LN)))
                      (np.sqrt (of_int n)) ;;
  E <- PyNum.truediv (py 12398.42) (d0 * np.sin tt)%py ;;
  Return E.

Definition e2bragg_eV (n : Z) (E : num) : result num :=
  d0 <- PyNum.truediv (py (2 * 5.43102)) (np.sqrt (of_int n)) ;;
  q <- PyNum.truediv (py 12398.42) d0 ;;
  q <- PyNum.truediv q E ;;
  t <- PyNum.truediv (np.arcsin q * py 180)%py np.pi ;;
  Return t.

Definition e2bragg_of_norm (n : Z) (E : num) : result num :=
  e2bragg_eV n (if (E <? py 100)%py then (E * py 1e3)%py else E).

(** ** The closed forms of the specification *)

Module Spec.

(** "if raw value > 1, treat as degrees and convert; else treat as
    already radians" *)
Definition angle_rad (t : R) : R :=
  if Rlt_dec 1 t then t * PI / 180 else t.

(** [d0 = 2·a·(1 − ln_correction)/sqrt(h*h + k*k + l*l)], [a = 5.43102],
    [ln_correction = 2.4e-4] only when the second crystal is cold. *)
Definition d0 (h k l : Z) (coldSecondCrystal : bool) : R :=
  2 * 5.43102 * (1 - (if coldSecondCrystal then 2.4e-4 else 0))
  / sqrt (IZR (h * h + k * k + l * l)).

(** [Energy = 12398.42 / (d0 · sin(angle_rad))] *)
Definition braggAngleToEnergy (t : R) (h k l : Z) (cold : bool) : R :=
  12398.42 / (d0 h k l cold * sin (angle_rad t)).

(** "If [energy < 100], it is reinterpreted as keV and multiplied by
    1000 before conversion" *)
Definition energy_eV (E : R) : R :=
  if Rlt_dec E 100 then E * 1000 else E.

(** The angle of a round trip "expressed in degrees". *)
Definition angle_deg (t : R) : R :=
  if Rlt_dec 1 t then t else t * 180 / PI.

(** [x ≈ y] to within [tol]. *)
Definition approx (tol x y : R) : Prop := Rabs (x - y) < tol.

End Spec.

(** The flag as the source receives it: any true value selects the
    correction. *)
Definition flag_of (LN : Z) : bool := negb (LN =? 0)%Z.

(** Numerator of the lattice spacing, [2*5.43102*(1-2.4e-4*LN)], after
    [if LN: LN=1]. *)
Definition lattice_numerator (LN : Z) : R :=
  2 * 5.43102 * (1 - 2.4e-4 * IZR (if (LN =? 0)%Z then LN else 1%Z)).

(** ** Detector distance and resolution

    [xf_detZ2recResolution] and [xf_recResolution2detZ] have the same text
    in both startup files. *)

Definition D_default : num := py 327.8.

Definition xf_detZ2recResolution (detZ xLambda D : num) : result num :=
  r <- PyNum.truediv (py 0.5 * D)%py detZ ;;
  recResolution <-
    PyNum.truediv xLambda (py 2 * np.sin (py 0.5 * np.arctan r))%py ;;
  Return recResolution.

Definition xf_recResolution2detZ (recResolution xLambda D : num) : result num :=
  q <- PyNum.truediv xLambda (py 2 * recResolution)%py ;;
  detZ <- PyNum.truediv (py 0.5 * D)%py (np.tan (py 2 * np.arcsin q)%py) ;;
  Return detZ.

(** ** Process variables and the session

    [set_influence] talks to the power supply through [epics.PV] objects.
    The hardware is abstract: a state that answers [get] and reacts to
    [put].  Every process variable is taken to be connected and to hold a
    number.  Building a [PV] object only opens the channel and is not
    recorded; [put], [get], [time.sleep] and [print] are recorded, in
    order, in the trace of the session. *)

Inductive parg : Type :=
  | PStr (s : string)
  | PInt (z : Z)
  | PNum (x : R)
  | PTuple (items : list string).

Inductive event : Type :=
  | Print (args : list parg)
  | Put (pv : string) (value : Z) (wait : bool)
  | Get (pv : string)
  | Sleep (seconds : R).

Definition is_write (e : event) : bool :=
  match e with Put _ _ _ => true | _ => false end.

Definition is_read (e : event) : bool :=
  match e with Get _ => true | _ => false end.

Definition is_print (e : event) : bool :=
  match e with Print _ => true | _ => false end.

(** Decimal text of a Python int, as [str.format] renders it. *)
Definition format_int (z : Z) : string :=
  DecimalString.NilZero.string_of_int (Z.to_int z).

(** [range(a, b)] *)
Definition range (a b : Z) : list Z :=
  map (fun n => (a + Z.of_nat n)%Z) (seq 0 (Z.to_nat (b - a))).

(** [numpy.diff] of a vector: [out[n] = a[n+1] - a[n]]. *)
Fixpoint np_diff (a : list R) : list R :=
  match a with
  | x :: (y :: _) as rest => (y - x) :: np_diff rest
  | _ => []
  end.

(** The loop [for diff in ...: if abs(diff) > 500: ... return]; [true] when
    the loop leaves the function. *)
Fixpoint diff_too_large (diffs : list R) : bool :=
  match diffs with
  | [] => false
  | diff :: rest =>
      if Rlt_dec 500 (Rabs diff) then true else diff_too_large rest
  end.

(** Position addressed by a Python list index. *)
Definition py_index (len i : Z) : result nat :=
  if ((0 <=? i) && (i <? len))%Z then Return (Z.to_nat i)
  else if ((- len <=? i) && (i <? 0))%Z then Return (Z.to_nat (len + i))
  else Raise IndexError.

Fixpoint update_nth (l : list R) (n : nat) (f : R -> R) : list R :=
  match l, n with
  | [], _ => []
  | x :: rest, O => f x :: rest
  | x :: rest, S n' => x :: update_nth rest n' f
  end.

(** [l[i] += d] *)
Definition iadd (l : list R) (i : Z) (d : R) : result (list R) :=
  n <- py_index (Z.of_nat (List.length l)) i ;;
  Return (update_nth l n (fun x => x + d)).

(** [l[i] -= d] *)
Definition isub (l : list R) (i : Z) (d : R) : result (list R) :=
  n <- py_index (Z.of_nat (List.length l)) i ;;
  Return (update_nth l n (fun x => x - d)).

(** The two updates of the demand vector:
    [if i > 0: new_demands[i - 1] -= step] and [new_demands[i] += step]. *)
Definition step_demands (new_demands : list R) (i : Z) (step : R)
  : result (list R) :=
  new_demands <- (if (i >? 0)%Z then isub new_demands (i - 1) step
                  else Return new_demands) ;;
  iadd new_demands i step.

(** [if bimorph == 'hfm': ... elif bimorph == 'kb': ...]; with any other
    value the name [prefix] would stay unbound. *)
Definition prefix_of (bimorph : string) : result string :=
  if (bimorph =? "hfm")%string then Return "XF:17IDA-OP:FMX{Mir:HFM-PS}:"%string
  else if (bimorph =? "kb")%string then Return "XF:17IDC-OP:FMX{Mir:KB-PS}:"%string
  else Raise UnboundLocalError.

Definition allowed_bimorphs : list string := ["hfm"; "kb"]%string.

(** Commands: state passing over the session, with exceptions. *)
Definition io (W A : Type) : Type := W -> W * result A.

Definition ret {W A : Type} (a : A) : io W A := fun w => (w, Return a).

Definition lift {W A : Type} (r : result A) : io W A := fun w => (w, r).

Definition io_bind {W A B : Type} (m : io W A) (f : A -> io W B) : io W B :=
  fun w =>
    match m w with
    | (w', Return a) => f a w'
    | (w', Raise e) => (w', Raise e)
    end.

Notation "x <- m ;; f" := (io_bind m (fun x => f))
  (at level 61, m at next level, right associativity) : io_scope.
Notation "m ;; f" := (io_bind m (fun _ => f))
  (at level 61, right associativity) : io_scope.

Record world (Hw : Type) : Type := mk_world { hw : Hw; trace : list event }.

Arguments mk_world {Hw} hw trace.
Arguments hw {Hw} w.
Arguments trace {Hw} w.

Definition emit {Hw : Type} (e : event) : io (world Hw) unit :=
  fun w => (mk_world (hw w) (trace w ++ [e]), Return tt).

Definition print {Hw : Type} (args : list parg) : io (world Hw) unit :=
  emit (Print args).

Definition sleep {Hw : Type} (seconds : R) : io (world Hw) unit :=
  emit (Sleep seconds).

Section Session.

Variable Hw : Type.
Variable pv_get : Hw -> string -> R.
Variable pv_put : Hw -> string -> Z -> bool -> Hw.

Definition get (pv : string) : io (world Hw) R :=
  fun w => (mk_world (hw w) (trace w ++ [Get pv]), Return (pv_get (hw w) pv)).

Definition put (pv : string) (value : Z) (wait : bool) : io (world Hw) unit :=
  fun w =>
    (mk_world (pv_put (hw w) pv value wait) (trace w ++ [Put pv value wait]),
     Return tt).

(** [[pv.get() for pv in pvs]] *)
Fixpoint get_all (pvs : list string) : io (world Hw) (list R) :=
  match pvs with
  | [] => ret []
  | pv :: rest =>
      (v <- get pv ;; vs <- get_all rest ;; ret (v :: vs))%io
  end.

Definition set_influence (electrode : Z) (bimorph : string) (bank : Z)
  : io (world Hw) unit :=
  (if negb (existsb (String.eqb bimorph) allowed_bimorphs) then
     print [PStr "bimorph should be one of"; PTuple allowed_bimorphs]
   else if ((electrode <? 0) || (electrode >? 31))%Z then
     print [PStr "electrode must be between 0 and 31"]
   else
     prefix <- lift (prefix_of bimorph) ;;
     let bank_pv := (prefix ++ "BANK_NO_32")%string in
     let incr_pv := (prefix ++ "INCR_U_CMD.A")%string in
     let decr_pv := (prefix ++ "DECR_U_CMD.A")%string in
     let step_pv := (prefix ++ "U_STEP_MON.A")%string in
     let demand_pvs :=
       map (fun i => (prefix ++ "U" ++ format_int i ++ "_CURRENT_MON")%string)
           (range ((bank - 1) * 16) (bank * 16)) in
     put bank_pv (bank - 1) true ;;
     sleep 0.5 ;;
     step <- get step_pv ;;
     demands <- get_all demand_pvs ;;
     let new_demands := demands in
     let i := if (electrode <? 16)%Z then electrode else (electrode - 16)%Z in
     new_demands <- lift (step_demands new_demands i step) ;;
     if diff_too_large (np_diff new_demands) then
       print [PStr "got difference between values larger than 500"]
     else
       (if (i >? 0)%Z then
          print [PStr "decrementing electrode"; PInt (electrode - 1);
                 PStr "by"; PNum step] ;;
          put decr_pv (electrode - 1) false
        else ret tt) ;;
       print [PStr "incrementing electrode"; PInt electrode;
              PStr "by"; PNum step] ;;
       put incr_pv electrode false)%io.

End Session.

Arguments get {Hw} pv_get pv w.
Arguments put {Hw} pv_put pv value wait w.
Arguments get_all {Hw} pv_get pvs w.
Arguments set_influence {Hw} pv_get pv_put electrode bimorph bank w.

(** ** A test bench

    A power supply that reports a step of 300 and a demand of 0 on every
    electrode, and whose readings do not react to commands. *)

Module Bench.

Definition pv_get (_ : unit) (pv : string) : R :=
  if (pv =? "XF:17IDC-OP:FMX{Mir:KB-PS}:U_STEP_MON.A")%string then 300 else 0.

Definition pv_put (h : unit) (_ : string) (_ : Z) (_ : bool) : unit := h.

Definition start : world unit := mk_world tt [].

End Bench.

(** A second bench, with a step of 100. *)

Module Bench100.

Definition pv_get (_ : unit) (pv : string) : R :=
  if (pv =? "XF:17IDC-OP:FMX{Mir:KB-PS}:U_STEP_MON.A")%string then 100 else 0.

End Bench100.

(** ** Plans and macros over ophyd devices

    [set_beamsize], [trans_set], [detectorCoverClose], [detectorCoverOpen]
    (in [99-macros.py]) and [anneal] (in [99-macros_99.py]) drive ophyd
    signals.  A signal is named by its device and its attribute, as the
    source writes them: [transfocator.vs.mv_in] is the signal [mv_in] of
    [transfocator.vs].  The hardware is an interface: it answers readings,
    reacts to a move carried out by the RunEngine ([yield from bps.mv]), to
    a direct [put], and to the passing of time in [time.sleep].  The
    governor helpers [govStatusGet] and [govStateSet] are not defined in the
    two files and are taken from the interface as well.  Readings are
    numbers and do not change the hardware.

    A generator is modelled by its run under the RunEngine: each message
    it yields is carried out before the statements after the [yield].  The
    polling loops of the source have no bound; the model gives them fuel
    and answers [Running] when the fuel runs out inside a loop. *)

Module Ophyd.

Record signal : Type := Sig { device : string; attr : string }.

Inductive op : Type :=
  | Say (args : list parg)                 (* print(...) *)
  | Read (s : signal)                      (* s.get(), s.value *)
  | Move (s : signal) (value : R)          (* yield from bps.mv(s, value) *)
  | Write (s : signal) (value : R)         (* s.put(value) *)
  | Wait (seconds : R)                     (* time.sleep(seconds) *)
  | GovStatusGet (state : string)          (* govStatusGet(state) *)
  | GovStateSet (state : string).          (* govStateSet(state) *)

Definition is_move (o : op) : bool :=
  match o with Move _ _ => true | _ => false end.

(** Operations that command the hardware. *)
Definition is_command (o : op) : bool :=
  match o with Move _ _ | Write _ _ | GovStateSet _ => true | _ => false end.

Class Hardware (Hw : Type) : Type := {
  reading : Hw -> signal -> R;
  moved : Hw -> signal -> R -> Hw;
  written : Hw -> signal -> R -> Hw;
  elapsed : Hw -> R -> Hw;
  gov_status : Hw -> string -> bool;
  gov_set : Hw -> string -> Hw
}.

Record session (Hw : Type) : Type := mk_session { rig : Hw; log : list op }.

Arguments mk_session {Hw} rig log.
Arguments rig {Hw} s.
Arguments log {Hw} s.

Inductive outcome (A : Type) : Type :=
  | Done (a : A)
  | Running.

Arguments Done {A} a.
Arguments Running {A}.

Definition plan (Hw A : Type) : Type := session Hw -> session Hw * outcome A.

Definition done {Hw A : Type} (a : A) : plan Hw A := fun s => (s, Done a).

Definition and_then {Hw A B : Type} (m : plan Hw A) (f : A -> plan Hw B)
  : plan Hw B :=
  fun s =>
    match m s with
    | (s', Done a) => f a s'
    | (s', Running) => (s', Running)
    end.

Declare Scope plan_scope.
Delimit Scope plan_scope with plan.

Notation "x <- m ;; f" := (and_then m (fun x => f))
  (at level 61, m at next level, right associativity) : plan_scope.
Notation "m ;; f" := (and_then m (fun _ => f))
  (at level 61, right associativity) : plan_scope.

Section Operations.

Context {Hw : Type} `{Hardware Hw}.

Definition say (args : list parg) : plan Hw unit :=
  fun s => (mk_session (rig s) (log s ++ [Say args]), Done tt).

Definition get (sg : signal) : plan Hw R :=
  fun s => (mk_session (rig s) (log s ++ [Read sg]), Done (reading (rig s) sg)).

Definition mv (sg : signal) (value : R) : plan Hw unit :=
  fun s => (mk_session (moved (rig s) sg value) (log s ++ [Move sg value]),
            Done tt).

Definition put (sg : signal) (value : R) : plan Hw unit :=
  fun s => (mk_session (written (rig s) sg value) (log s ++ [Write sg value]),
            Done tt).

(** [time.sleep(seconds)] raises [ValueError] for a negative duration and
    [OverflowError] for one that a 64-bit count of nanoseconds cannot hold
    (about 9.22e9 s).  [sleep] is the call for a duration it accepts: the
    loops of the source sleep 0.5 s or 0.1 s, and a statement about a sleep
    whose length is an argument assumes [sleepable]. *)
Definition sleepable (seconds : R) : Prop := 0 <= seconds <= 9000000000.

Definition sleep (seconds : R) : plan Hw unit :=
  fun s => (mk_session (elapsed (rig s) seconds) (log s ++ [Wait seconds]),
            Done tt).

Definition govStatusGet (state : string) : plan Hw bool :=
  fun s => (mk_session (rig s) (log s ++ [GovStatusGet state]),
            Done (gov_status (rig s) state)).

Definition govStateSet (state : string) : plan Hw unit :=
  fun s => (mk_session (gov_set (rig s) state) (log s ++ [GovStateSet state]),
            Done tt).

(** [while again(sg.get()): time.sleep(dt)] *)
Fixpoint poll (fuel : nat) (sg : signal) (again : R -> bool) (dt : R)
  : plan Hw unit :=
  match fuel with
  | O => fun s => (s, Running)
  | S fuel' =>
      (v <- get sg ;;
       if again v then sleep dt ;; poll fuel' sg again dt else done tt)%plan
  end.

(** [while test: time.sleep(dt)] for a test that holds on every round and
    takes no reading. *)
Fixpoint sleep_on (fuel : nat) (dt : R) : plan Hw unit :=
  match fuel with
  | O => fun s => (s, Running)
  | S fuel' => (sleep dt ;; sleep_on fuel' dt)%plan
  end.

Definition eq_1 (v : R) : bool := if Req_dec_T v 1 then true else false.
Definition ne_1 (v : R) : bool := negb (eq_1 v).
(** [not v] *)
Definition falsy (v : R) : bool := if Req_dec_T v 0 then true else false.

(** [get_energy()] *)
Definition get_energy : plan Hw R := get (Sig "hdcm.e" "user_readback").

(** [detectorCoverClose()] *)
Definition detectorCoverClose (fuel : nat) : plan Hw unit :=
  (mv (Sig "cover_detector" "close") 1 ;;
   poll fuel (Sig "cover_detector" "status") eq_1 0.5 ;;
   done tt)%plan.

(** [detectorCoverOpen()] *)
Definition detectorCoverOpen (fuel : nat) : plan Hw unit :=
  (mv (Sig "cover_detector" "open") 1 ;;
   poll fuel (Sig "cover_detector" "status") ne_1 0.5 ;;
   done tt)%plan.

(** [trans_set(transmission, trans)]; an attenuator is named by its
    device, the default being [trans_bcu].  The loop of the [trans_bcu]
    branch is [while atten_bcu.done != 1: time.sleep(0.5)]: it compares
    the signal object [atten_bcu.done] itself with 1, without [.get()], so
    it takes no reading and its test holds on every round.  The last
    [print] formats [trans.transmission.value] with [%.3f]; the model
    keeps the number. *)
Definition trans_set (fuel : nat) (transmission : R) (trans : string)
  : plan Hw unit :=
  (e_dcm <- get_energy ;;
   if (if Rlt_dec e_dcm 5000 then true else false)
      || (if Rlt_dec 30000 e_dcm then true else false)
   then
     say [PStr "Monochromator energy out of range. Must be within 5000 - 30000 eV. Exiting."]
   else
     mv (Sig trans "energy") e_dcm ;;
     mv (Sig trans "transmission") transmission ;;
     mv (Sig trans "set_trans") 1 ;;
     (if (trans =? "trans_bcu")%string
      then sleep_on fuel 0.5
      else done tt) ;;
     value <- get (Sig trans "transmission") ;;
     say [PStr "Attenuator = "; PStr trans; PStr ", Transmission set to ";
          PNum value])%plan.

(** [set_beamsize(sizeV, sizeH)] *)
Definition set_beamsize (sizeV sizeH : string) : plan Hw unit :=
  (energy <- get_energy ;;
   (if Rlt_dec energy 9000.0
    then say [PStr "Warning: For energies < 9 keV, use KB mirrors to defocus, not CRLs"]
    else done tt) ;;
   (if (sizeV =? "V0")%string then
      mv (Sig "transfocator.vs" "mv_out") 1 ;;
      mv (Sig "transfocator.v2a" "mv_out") 1 ;;
      mv (Sig "transfocator.v1a" "mv_out") 1 ;;
      mv (Sig "transfocator.v1b" "mv_out") 1
    else if (sizeV =? "V1")%string then
      mv (Sig "transfocator.vs" "mv_in") 1 ;;
      mv (Sig "transfocator.v2a" "mv_out") 1 ;;
      mv (Sig "transfocator.v1a" "mv_out") 1 ;;
      mv (Sig "transfocator.v1b" "mv_in") 1
    else
      say [PStr "Error: Vertical size argument has to be 'V0' or  'V1'"]) ;;
   (if (sizeH =? "H0")%string then
      mv (Sig "transfocator.h4a" "mv_out") 1 ;;
      mv (Sig "transfocator.h2a" "mv_out") 1 ;;
      mv (Sig "transfocator.h1a" "mv_out") 1 ;;
      mv (Sig "transfocator.h1b" "mv_out") 1
    else if (sizeH =? "H1")%string then
      mv (Sig "transfocator.h4a" "mv_out") 1 ;;
      mv (Sig "transfocator.h2a" "mv_in") 1 ;;
      mv (Sig "transfocator.h1a" "mv_in") 1 ;;
      mv (Sig "transfocator.h1b" "mv_in") 1
    else
      say [PStr "Error: Horizontal size argument has to be 'H0' or  'H1'"]) ;;
   done tt)%plan.

(** [anneal(t)]; the result is [Some (-1)] for [return -1] and [None] for
    a plain [return]. *)
Definition anneal (fuel : nat) (t : R) : plan Hw (option Z) :=
  (in_SA <- govStatusGet "SA" ;;
   if negb in_SA then
     say [PStr "Not in Governor state SA, exiting"] ;;
     done (Some (-1)%Z)
   else
     govStateSet "CB" ;;
     put (Sig "annealer" "air") 1 ;;
     poll fuel (Sig "annealer" "inStatus") falsy 0.1 ;;
     sleep t ;;
     put (Sig "annealer" "air") 0 ;;
     poll fuel (Sig "annealer" "outStatus") falsy 0.1 ;;
     govStateSet "SA" ;;
     done None)%plan.

End Operations.

(** The hardware after [n] sleeps of [dt] seconds. *)
Fixpoint after_sleeps {Hw : Type} `{Hardware Hw} (n : nat) (dt : R) (h : Hw)
  : Hw :=
  match n with
  | O => h
  | S n' => after_sleeps n' dt (elapsed h dt)
  end.

(** The log of [n] rounds of a polling loop that then leaves. *)
Fixpoint polls (n : nat) (sg : signal) (dt : R) : list op :=
  match n with
  | O => [Read sg]
  | S n' => Read sg :: Wait dt :: polls n' sg dt
  end.

End Ophyd.

(** The eight lenses of the transfocator, in the order in which
    [set_beamsize] addresses them. *)
Definition vertical_lenses : list string :=
  ["transfocator.vs"; "transfocator.v2a"; "transfocator.v1a";
   "transfocator.v1b"]%string.

Definition horizontal_lenses : list string :=
  ["transfocator.h4a"; "transfocator.h2a"; "transfocator.h1a";
   "transfocator.h1b"]%string.

(** One move with value 1 per lens, to the attribute listed for it. *)
Definition lens_moves (lenses attrs : list string) : list Ophyd.op :=
  map (fun p => Ophyd.Move (Ophyd.Sig (fst p) (snd p)) 1) (combine lenses attrs).

(** The warning of [set_beamsize], present below 9000 eV. *)
Definition warned (energy : R) : list Ophyd.op :=
  if Rlt_dec energy 9000.0
  then [Ophyd.Say [PStr "Warning: For energies < 9 keV, use KB mirrors to defocus, not CRLs"]]
  else [].

(** The attributes [set_beamsize] addresses for a valid argument, lens by
    lens. *)
Definition vertical_attrs (sizeV : string) : list string :=
  if (sizeV =? "V0")%string then ["mv_out"; "mv_out"; "mv_out"; "mv_out"]%string
  else ["mv_in"; "mv_out"; "mv_out"; "mv_in"]%string.

Definition horizontal_attrs (sizeH : string) : list string :=
  if (sizeH =? "H0")%string then ["mv_out"; "mv_out"; "mv_out"; "mv_out"]%string
  else ["mv_out"; "mv_in"; "mv_in"; "mv_in"]%string.

(** A scripted rig: what every signal will read after each sleep is fixed
    in advance, and commands do not alter the script.  The governor is in
    state [st] when the signal [st] of [governor] reads non-zero. *)

Module Script.

Definition t : Type := nat -> Ophyd.signal -> R.

#[global] Instance hardware : Ophyd.Hardware t := {|
  Ophyd.reading := fun h sg => h O sg;
  Ophyd.moved := fun h _ _ => h;
  Ophyd.written := fun h _ _ => h;
  Ophyd.elapsed := fun h _ => fun n => h (S n);
  Ophyd.gov_status := fun h st => negb (Ophyd.falsy (h O (Ophyd.Sig "governor" st)));
  Ophyd.gov_set := fun h _ => h
|}.

(** Every signal reads [v], always. *)
Definition constant (v : R) : t := fun _ _ => v.

(** A signal that reads [before] until the [n]-th sleep and [after] from
    then on; every other signal reads [rest]. *)
Definition switch (sg : Ophyd.signal) (n : nat) (before after rest : R) : t :=
  fun m sg' =>
    if ((Ophyd.device sg' =? Ophyd.device sg)
        && (Ophyd.attr sg' =? Ophyd.attr sg))%string
    then (if (m <? n)%nat then before else after)
    else rest.

(** An annealer whose [inStatus] reads 0 before sleep [t_in] and 1 from
    then on, and whose [outStatus] does so at [t_out]; everything else,
    the governor included, reads 1. *)
Definition annealer (t_in t_out : nat) : t :=
  fun m sg =>
    if (Ophyd.attr sg =? "inStatus")%string
    then (if (m <? t_in)%nat then 0 else 1)
    else if (Ophyd.attr sg =? "outStatus")%string
         then (if (m <? t_out)%nat then 0 else 1)
         else 1.

End Script.

(** [sizeH] is one of the two values [set_beamsize] accepts. *)
Definition horizontal_valid (sizeH : string) : bool :=
  ((sizeH =? "H0") || (sizeH =? "H1"))%string.

(** * Properties *)

(** ** Evaluation lemmas for the number model *)

Lemma Rlt_div_lower (a b c : R) : 0 < c -> a * c < b -> a < b / c.
Proof.
  intros Hc H. assert (E : b / c * c = b) by (field; lra).
  apply Rmult_lt_reg_r with c; lra.
Qed.

Lemma Rle_div_lower (a b c : R) : 0 < c -> a * c <= b -> a <= b / c.
Proof.
  intros Hc H. assert (E : b / c * c = b) by (field; lra).
  apply Rmult_le_reg_r with c; lra.
Qed.

Lemma Rle_div_upper (a b c : R) : 0 < c -> b <= a * c -> b / c <= a.
Proof.
  intros Hc H. assert (E : b / c * c = b) by (field; lra).
  apply Rmult_le_reg_r with c; lra.
Qed.

Lemma Rlt_div_upper (a b c : R) : 0 < c -> b < a * c -> b / c < a.
Proof.
  intros Hc H. assert (E : b / c * c = b) by (field; lra).
  apply Rmult_lt_reg_r with c; lra.
Qed.

Lemma truediv_fin (ka kb : kind) (x y : R) :
  y <> 0 ->
  PyNum.truediv (mk_num ka (Fin x)) (mk_num kb (Fin y))
  = Return (mk_num (join ka kb) (Fin (x / y))).
Proof.
  intros Hy. unfold PyNum.truediv; cbn.
  destruct (Req_dec_T y 0) as [E|_]; [contradiction|].
  destruct (join ka kb); reflexivity.
Qed.

Lemma truediv_numpy_total (a b : num) :
  join (nkind a) (nkind b) = Np ->
  PyNum.truediv a b = Return (float64 (IEEE.div (nval a) (nval b))).
Proof. intros H. unfold PyNum.truediv. rewrite H. reflexivity. Qed.

Lemma mul_fin (ka kb : kind) (x y : R) :
  (mk_num ka (Fin x) * mk_num kb (Fin y))%py = mk_num (join ka kb) (Fin (x * y)).
Proof. reflexivity. Qed.

Lemma gt_fin (ka kb : kind) (x y : R) :
  (mk_num ka (Fin x) >? mk_num kb (Fin y))%py
  = if Rlt_dec y x then true else false.
Proof. reflexivity. Qed.

Lemma lt_fin (ka kb : kind) (x y : R) :
  (mk_num ka (Fin x) <? mk_num kb (Fin y))%py
  = if Rlt_dec x y then true else false.
Proof. reflexivity. Qed.

Lemma np_sqrt_int (z : Z) :
  (0 <= z)%Z -> np.sqrt (of_int z) = float64 (Fin (sqrt (IZR z))).
Proof.
  intros Hz. unfold np.sqrt, of_int, py; cbn.
  apply IZR_le in Hz. destruct (Rlt_dec (IZR z) 0); [lra | reflexivity].
Qed.

Lemma join_Py_r (k : kind) : join k Py = k.
Proof. destruct k; reflexivity. Qed.

Lemma join_Np_r (k : kind) : join k Np = Np.
Proof. destruct k; reflexivity. Qed.

(** ** The two files against their shared text *)

Lemma xf_bragg2e_unfold (t : num) (h k l LN : Z) :
  Macros.xf_bragg2e t h k l LN = bragg2e_of_norm (Macros.miller_norm h k l) t LN.
Proof. reflexivity. Qed.

Lemma xf_bragg2e_99_unfold (t : num) (h k l LN : Z) :
  Macros99.xf_bragg2e t h k l LN
  = bragg2e_of_norm (Macros99.miller_norm h k l) t LN.
Proof. reflexivity. Qed.

Lemma xf_e2bragg_unfold (E : num) (h k l : Z) :
  Macros.xf_e2bragg E h k l = e2bragg_of_norm (Macros.miller_norm h k l) E.
Proof. reflexivity. Qed.

Lemma xf_e2bragg_99_unfold (E : num) (h k l : Z) :
  Macros99.xf_e2bragg E h k l = e2bragg_of_norm (Macros99.miller_norm h k l) E.
Proof. reflexivity. Qed.

(** ** Miller indices *)

Lemma miller_norm99_squares (h k l : Z) :
  Macros99.miller_norm h k l = (h * h + k * k + l * l)%Z.
Proof. unfold Macros99.miller_norm. ring. Qed.

Lemma miller_norm99_pos (h k l : Z) :
  (h <> 0 \/ k <> 0 \/ l <> 0)%Z -> (0 < Macros99.miller_norm h k l)%Z.
Proof. rewrite miller_norm99_squares. nia. Qed.

Lemma miller_norm99_zero : Macros99.miller_norm 0 0 0 = 0%Z.
Proof. reflexivity. Qed.

(** ** Bragg angle to energy *)

Lemma lattice_numerator_pos (LN : Z) : 0 < lattice_numerator LN.
Proof.
  unfold lattice_numerator. destruct (Z.eqb_spec LN 0) as [->|_]; lra.
Qed.

Lemma lattice_numerator_flag (LN : Z) :
  lattice_numerator LN
  = 2 * 5.43102 * (1 - (if flag_of LN then 2.4e-4 else 0)).
Proof.
  unfold lattice_numerator, flag_of.
  destruct (Z.eqb_spec LN 0) as [->|_]; cbn; lra.
Qed.

Lemma lattice_numerator_0 : lattice_numerator 0 = 2 * 5.43102.
Proof. unfold lattice_numerator; cbn. lra. Qed.

(** The degree-or-radian step of [xf_bragg2e] on a finite angle. *)
Lemma angle_step (kd : kind) (t : R) :
  (if (mk_num kd (Fin t) >? py 1)%py
   then PyNum.truediv (mk_num kd (Fin t) * np.pi)%py (py 180)
   else Return (mk_num kd (Fin t)))
  = Return (mk_num kd (Fin (Spec.angle_rad t))).
Proof.
  unfold py, np.pi, py, Spec.angle_rad. rewrite gt_fin.
  destruct (Rlt_dec 1 t); [|reflexivity].
  rewrite mul_fin, truediv_fin by lra. now rewrite !join_Py_r.
Qed.

Lemma d0_step (a : R) (n : Z) :
  PyNum.truediv (py a) (np.sqrt (of_int n))
  = Return (float64 (IEEE.div (Fin a) (IEEE.sqrt (Fin (IZR n))))).
Proof. reflexivity. Qed.

Lemma d0_step_pos (a : R) (n : Z) :
  (0 < n)%Z ->
  PyNum.truediv (py a) (np.sqrt (of_int n))
  = Return (float64 (Fin (a / sqrt (IZR n)))).
Proof.
  intros Hn. rewrite np_sqrt_int by lia. unfold py, float64.
  rewrite truediv_fin; [reflexivity|].
  apply Rgt_not_eq, sqrt_lt_R0, IZR_lt. exact Hn.
Qed.

Lemma sqrt_IZR_pos (n : Z) : (0 < n)%Z -> 0 < sqrt (IZR n).
Proof. intros Hn. apply sqrt_lt_R0, (IZR_lt 0). exact Hn. Qed.

Lemma sqrt_IZR_ge_1 (n : Z) : (0 < n)%Z -> 1 <= sqrt (IZR n).
Proof.
  intros Hn. rewrite <- sqrt_1. apply sqrt_le_1_alt, (IZR_le 1). lia.
Qed.

Section Bragg2e.

Variable n : Z.
Variable LN : Z.

(** Positive radicand, non-zero sine: the closed form. *)
Lemma bragg2e_closed_form (kd : kind) (t : R) :
  (0 < n)%Z ->
  sin (Spec.angle_rad t) <> 0 ->
  bragg2e_of_norm n (mk_num kd (Fin t)) LN
  = Return (float64 (Fin (12398.42 /
      (lattice_numerator LN / sqrt (IZR n) * sin (Spec.angle_rad t))))).
Proof.
  intros Hn Hs. unfold bragg2e_of_norm.
  rewrite angle_step. cbn [bind].
  fold (lattice_numerator LN). rewrite d0_step_pos by exact Hn. cbn [bind].
  unfold np.sin, float64, py. cbn [nval IEEE.sin]. rewrite mul_fin.
  rewrite truediv_fin; [reflexivity|].
  pose proof (lattice_numerator_pos LN). pose proof (sqrt_IZR_pos n Hn).
  apply Rmult_integral_contrapositive_currified; [|exact Hs].
  apply Rgt_not_eq. now apply Rdiv_lt_0_compat.
Qed.

(** Positive radicand, zero sine: IEEE division by zero. *)
Lemma bragg2e_sin_zero (kd : kind) (t : R) :
  (0 < n)%Z ->
  sin (Spec.angle_rad t) = 0 ->
  bragg2e_of_norm n (mk_num kd (Fin t)) LN = Return (float64 PInf).
Proof.
  intros Hn Hs. unfold bragg2e_of_norm.
  rewrite angle_step. cbn [bind].
  fold (lattice_numerator LN). rewrite d0_step_pos by exact Hn. cbn [bind].
  unfold np.sin, float64, py. cbn [nval IEEE.sin]. rewrite mul_fin.
  rewrite truediv_numpy_total by reflexivity.
  cbn [bind nval IEEE.div]. rewrite Hs, Rmult_0_r.
  destruct (Req_dec_T 0 0); [|lra].
  destruct (Req_dec_T 12398.42 0); [lra|].
  unfold IEEE.nonneg. destruct (Rle_dec 0 12398.42); [reflexivity | lra].
Qed.

End Bragg2e.

(** Radicand zero, non-zero sine: the lattice spacing is infinite and the
    energy is zero. *)
Lemma bragg2e_norm_zero (LN : Z) (kd : kind) (t : R) :
  sin (Spec.angle_rad t) <> 0 ->
  bragg2e_of_norm 0 (mk_num kd (Fin t)) LN = Return (float64 (Fin 0)).
Proof.
  intros Hs. unfold bragg2e_of_norm.
  rewrite angle_step. cbn [bind].
  fold (lattice_numerator LN). rewrite d0_step. cbn [bind].
  pose proof (lattice_numerator_pos LN) as Ha.
  cbn [IEEE.sqrt]. destruct (Rlt_dec 0 0); [lra|]. rewrite sqrt_0.
  cbn [IEEE.div]. destruct (Req_dec_T 0 0); [|lra].
  destruct (Req_dec_T (lattice_numerator LN) 0); [lra|].
  unfold IEEE.nonneg at 1. destruct (Rle_dec 0 (lattice_numerator LN)); [|lra].
  cbn [IEEE.inf_of_sign].
  rewrite truediv_numpy_total by reflexivity.
  cbn [nval float64 np.sin PyNum.mul IEEE.sin IEEE.mul py].
  destruct (Req_dec_T (sin (Spec.angle_rad t)) 0); [contradiction|].
  destruct (IEEE.nonneg (sin (Spec.angle_rad t))); reflexivity.
Qed.

Lemma bragg2e_norm_zero_sin_zero (LN : Z) (kd : kind) (t : R) :
  sin (Spec.angle_rad t) = 0 ->
  bragg2e_of_norm 0 (mk_num kd (Fin t)) LN = Return (float64 NaN).
Proof.
  intros Hs. unfold bragg2e_of_norm.
  rewrite angle_step. cbn [bind].
  fold (lattice_numerator LN). rewrite d0_step. cbn [bind].
  pose proof (lattice_numerator_pos LN) as Ha.
  cbn [IEEE.sqrt]. destruct (Rlt_dec 0 0); [lra|]. rewrite sqrt_0.
  cbn [IEEE.div]. destruct (Req_dec_T 0 0); [|lra].
  destruct (Req_dec_T (lattice_numerator LN) 0); [lra|].
  unfold IEEE.nonneg at 1. destruct (Rle_dec 0 (lattice_numerator LN)); [|lra].
  cbn [IEEE.inf_of_sign].
  rewrite truediv_numpy_total by reflexivity.
  cbn [nval float64 np.sin PyNum.mul IEEE.sin IEEE.mul py].
  destruct (Req_dec_T (sin (Spec.angle_rad t)) 0); [reflexivity | contradiction].
Qed.

Lemma angle_rad_degrees (t : R) : 1 < t -> Spec.angle_rad t = t * PI / 180.
Proof. intros Ht. unfold Spec.angle_rad. destruct (Rlt_dec 1 t); [reflexivity | lra]. Qed.

Lemma angle_rad_radians (t : R) : t <= 1 -> Spec.angle_rad t = t.
Proof. intros Ht. unfold Spec.angle_rad. destruct (Rlt_dec 1 t); [lra | reflexivity]. Qed.

Lemma sin_10_degrees_pos : 0 < sin (Spec.angle_rad 10).
Proof.
  rewrite angle_rad_degrees by lra. pose proof PI_RGT_0.
  apply sin_gt_0; lra.
Qed.

(** [xf_bragg2e] of [99-macros_99.py] computes the closed form of the
    specification whenever that closed form is defined. *)
Lemma xf_bragg2e_99_closed_form (kd : kind) (t : R) (h k l LN : Z) :
  (h <> 0 \/ k <> 0 \/ l <> 0)%Z ->
  sin (Spec.angle_rad t) <> 0 ->
  Macros99.xf_bragg2e (mk_num kd (Fin t)) h k l LN
  = Return (float64 (Fin (Spec.braggAngleToEnergy t h k l (flag_of LN)))).
Proof.
  intros Hm Hs. rewrite xf_bragg2e_99_unfold.
  rewrite bragg2e_closed_form by (auto using miller_norm99_pos).
  unfold Spec.braggAngleToEnergy, Spec.d0.
  now rewrite lattice_numerator_flag, miller_norm99_squares.
Qed.

(** With the default indices the exclusive-or expression happens to be 3
    as well, so the example of the specification holds in both files. *)
Lemma xf_bragg2e_111 :
  Macros.xf_bragg2e (py 10) 1 1 1 0
  = Return (float64 (Fin (12398.42 / (2 * 5.43102 / sqrt 3 * sin (10 * PI / 180)))))
  /\ Macros99.xf_bragg2e (py 10) 1 1 1 0
  = Return (float64 (Fin (12398.42 / (2 * 5.43102 / sqrt 3 * sin (10 * PI / 180))))).
Proof.
  pose proof sin_10_degrees_pos as Hs.
  rewrite xf_bragg2e_unfold, xf_bragg2e_99_unfold.
  change (Macros.miller_norm 1 1 1) with 3%Z.
  change (Macros99.miller_norm 1 1 1) with 3%Z.
  unfold py. rewrite bragg2e_closed_form by (lia || lra).
  rewrite lattice_numerator_0, angle_rad_degrees by lra. split; reflexivity.
Qed.

(** A smaller radicand gives a strictly smaller energy. *)
Lemma bragg2e_radicand_lt (a s : R) (n m : Z) :
  0 < a -> 0 < s -> (0 < n < m)%Z ->
  12398.42 / (a / sqrt (IZR n) * s) < 12398.42 / (a / sqrt (IZR m) * s).
Proof.
  intros Ha Hs [Hn Hnm].
  assert (Hsn : 0 < sqrt (IZR n)) by now apply sqrt_IZR_pos.
  assert (Hlt : sqrt (IZR n) < sqrt (IZR m)).
  { apply sqrt_lt_1_alt. split; [apply (IZR_le 0); lia | now apply IZR_lt]. }
  replace (12398.42 / (a / sqrt (IZR n) * s))
    with (12398.42 / (a * s) * sqrt (IZR n)) by (field; lra).
  replace (12398.42 / (a / sqrt (IZR m) * s))
    with (12398.42 / (a * s) * sqrt (IZR m)) by (field; lra).
  apply Rmult_lt_compat_l; [|exact Hlt].
  apply Rdiv_lt_0_compat; nra.
Qed.

Lemma Return_float64_Fin_inj (x y : R) :
  Return (float64 (Fin x)) = Return (float64 (Fin y)) -> x = y.
Proof. intros H. now injection H. Qed.

(** C1.  Code defect, evaluated at the Si(311) reflection: in
    [99-macros.py] the radicand [h^2+k^2+l^2] is a bitwise exclusive or and
    evaluates to 1 for (3,1,1), so [xf_bragg2e(10, 3, 1, 1)] returns
    [12398.42/(2*5.43102/sqrt(1) * sin(10*pi/180))], which is not the
    closed form with arithmetic squares, [h*h + k*k + l*l = 11]. *)
Theorem xf_bragg2e_xor_radicand_311 :
  Macros.miller_norm 3 1 1 = 1%Z
  /\ Macros.xf_bragg2e (py 10) 3 1 1 0
     = Return (float64 (Fin
         (12398.42 / (2 * 5.43102 / sqrt 1 * sin (10 * PI / 180)))))
  /\ Macros.xf_bragg2e (py 10) 3 1 1 0
     <> Return (float64 (Fin (Spec.braggAngleToEnergy 10 3 1 1 false))).
Proof.
  pose proof sin_10_degrees_pos as Hs.
  split; [reflexivity|].
  rewrite xf_bragg2e_unfold. change (Macros.miller_norm 3 1 1) with 1%Z.
  unfold py. rewrite bragg2e_closed_form by (lia || lra).
  rewrite lattice_numerator_0.
  split; [now rewrite angle_rad_degrees by lra|].
  intros H. apply Return_float64_Fin_inj in H.
  unfold Spec.braggAngleToEnergy, Spec.d0 in H.
  change (3 * 3 + 1 * 1 + 1 * 1)%Z with 11%Z in H.
  replace (2 * 5.43102 * (1 - 0)) with (2 * 5.43102) in H by lra.
  assert (Hz : (0 < 1 < 11)%Z) by lia.
  pose proof (bragg2e_radicand_lt (2 * 5.43102) (sin (Spec.angle_rad 10)) 1 11
                ltac:(lra) Hs Hz).
  lra.
Qed.

(** C2.  Code defect (the same one as C1): at the Si(311) reflection the
    definition of [xf_bragg2e] in [99-macros.py] and the one in
    [99-macros_99.py] return different energies. *)
Theorem xf_bragg2e_files_differ_311 :
  Macros.xf_bragg2e (py 10) 3 1 1 0 <> Macros99.xf_bragg2e (py 10) 3 1 1 0.
Proof.
  pose proof sin_10_degrees_pos as Hs.
  rewrite xf_bragg2e_unfold, xf_bragg2e_99_unfold.
  change (Macros.miller_norm 3 1 1) with 1%Z.
  change (Macros99.miller_norm 3 1 1) with 11%Z.
  unfold py. rewrite !bragg2e_closed_form by (lia || lra).
  intros H. apply Return_float64_Fin_inj in H.
  assert (Hz : (0 < 1 < 11)%Z) by lia.
  pose proof (bragg2e_radicand_lt (lattice_numerator 0)
                (sin (Spec.angle_rad 10)) 1 11 (lattice_numerator_pos 0) Hs Hz).
  lra.
Qed.

(** The two files agree wherever the exclusive-or expression equals the
    sum of squares. *)
Lemma xf_bragg2e_files_agree (t : num) (h k l LN : Z) :
  Macros.miller_norm h k l = Macros99.miller_norm h k l ->
  Macros.xf_bragg2e t h k l LN = Macros99.xf_bragg2e t h k l LN.
Proof.
  intros H. now rewrite xf_bragg2e_unfold, xf_bragg2e_99_unfold, H.
Qed.

(** ** Degenerate inputs of [xf_bragg2e] *)

(** C5, as the claim states it, fails: with [h = k = l = 0] the call
    [xf_bragg2e(10, 0, 0, 0)] of [99-macros_99.py] raises nothing and
    returns the ordinary number [0.0]. *)
Lemma xf_bragg2e_zero_indices_returns_zero :
  Macros99.xf_bragg2e (py 10) 0 0 0 0 = Return (float64 (Fin 0))
  /\ forall e : exn, Macros99.xf_bragg2e (py 10) 0 0 0 0 <> Raise e.
Proof.
  pose proof sin_10_degrees_pos as Hs.
  rewrite xf_bragg2e_99_unfold, miller_norm99_zero.
  unfold py. rewrite bragg2e_norm_zero by lra.
  split; [reflexivity | discriminate].
Qed.

(** C5, amended.  The degenerate inputs of [xf_bragg2e] as defined in
    [99-macros_99.py]; none of them raises.  With [h = k = l = 0] and an
    angle whose value in radians lies in (0, pi), the lattice spacing is
    infinite and the call returns the ordinary number [0.0].  With a zero
    angle, the one angle whose sine is zero on doubles, and
    [h = k = l = 0], it returns NaN.  With a zero angle and
    [0 < h*h + k*k + l*l < 2^64], it returns an infinity. *)
Theorem xf_bragg2e_degenerate (kd : kind) (t : R) (h k l LN : Z) :
  ((h = 0 /\ k = 0 /\ l = 0)%Z ->
   0 < Spec.angle_rad t < PI ->
   Macros99.xf_bragg2e (mk_num kd (Fin t)) h k l LN
   = Return (float64 (Fin 0)))
  /\ ((h = 0 /\ k = 0 /\ l = 0)%Z ->
      Macros99.xf_bragg2e (mk_num kd (Fin 0)) h k l LN
      = Return (float64 NaN))
  /\ ((0 < h * h + k * k + l * l < 2 ^ 64)%Z ->
      Macros99.xf_bragg2e (mk_num kd (Fin 0)) h k l LN = Return (float64 PInf)
      \/ Macros99.xf_bragg2e (mk_num kd (Fin 0)) h k l LN
         = Return (float64 NInf)).
Proof.
  assert (H0 : sin (Spec.angle_rad 0) = 0).
  { rewrite angle_rad_radians by lra. apply sin_0. }
  repeat split.
  - intros (-> & -> & ->) Ht. rewrite xf_bragg2e_99_unfold, miller_norm99_zero.
    apply bragg2e_norm_zero. apply Rgt_not_eq. apply sin_gt_0; lra.
  - intros (-> & -> & ->). rewrite xf_bragg2e_99_unfold, miller_norm99_zero.
    now apply bragg2e_norm_zero_sin_zero.
  - intros Hn. left. rewrite xf_bragg2e_99_unfold.
    apply bragg2e_sin_zero; [rewrite miller_norm99_squares; lia | exact H0].
Qed.

Lemma xf_bragg2e_degenerate_witness :
  Macros99.xf_bragg2e (py 10) 0 0 0 0 = Return (float64 (Fin 0))
  /\ Macros99.xf_bragg2e (py 0) 0 0 0 0 = Return (float64 NaN)
  /\ (Macros99.xf_bragg2e (py 0) 1 1 1 0 = Return (float64 PInf)
      \/ Macros99.xf_bragg2e (py 0) 1 1 1 0 = Return (float64 NInf)).
Proof.
  split; [|split].
  - apply (xf_bragg2e_degenerate Py 10 0 0 0 0); [repeat split|].
    rewrite angle_rad_degrees by lra. pose proof PI_RGT_0. lra.
  - apply (xf_bragg2e_degenerate Py 0 0 0 0 0). repeat split.
  - apply (xf_bragg2e_degenerate Py 0 1 1 1 0). lia.
Defined.

(** ** Energy to Bragg angle *)

Lemma unit_step (kd : kind) (E : R) :
  (if (mk_num kd (Fin E) <? py 100)%py
   then (mk_num kd (Fin E) * py 1e3)%py else mk_num kd (Fin E))
  = mk_num kd (Fin (Spec.energy_eV E)).
Proof.
  unfold py, Spec.energy_eV. rewrite lt_fin.
  destruct (Rlt_dec E 100); [|reflexivity].
  rewrite mul_fin, join_Py_r. do 2 f_equal. lra.
Qed.

Section E2bragg.

Variable n : Z.

Hypothesis n_pos : (0 < n)%Z.

Let d0 : R := 2 * 5.43102 / sqrt (IZR n).

Lemma d0_pos : 0 < d0.
Proof.
  pose proof (sqrt_IZR_pos n n_pos). apply Rdiv_lt_0_compat; lra.
Qed.

(** Up to the arcsine, on a non-zero energy. *)
Lemma e2bragg_eV_finite (kd : kind) (E : R) :
  E <> 0 ->
  e2bragg_eV n (mk_num kd (Fin E))
  = (t <- PyNum.truediv
            (np.arcsin (float64 (Fin (12398.42 / d0 / E))) * py 180)%py np.pi ;;
     Return t).
Proof.
  intros HE. pose proof d0_pos as Hd. unfold e2bragg_eV.
  rewrite d0_step_pos by exact n_pos. cbn [bind]. fold d0.
  unfold py, float64. rewrite truediv_fin by lra. cbn [bind join].
  rewrite truediv_fin by exact HE. cbn [bind join]. reflexivity.
Qed.

Lemma e2bragg_eV_in_range (kd : kind) (E : R) :
  E <> 0 ->
  -1 <= 12398.42 / d0 / E <= 1 ->
  e2bragg_eV n (mk_num kd (Fin E))
  = Return (float64 (Fin (asin (12398.42 / d0 / E) * 180 / PI))).
Proof.
  intros HE Hq. rewrite e2bragg_eV_finite by exact HE.
  unfold np.arcsin, float64, py, np.pi, py. cbn [nval IEEE.arcsin].
  destruct (Rlt_dec (12398.42 / d0 / E) (-1)); [lra|].
  destruct (Rlt_dec 1 (12398.42 / d0 / E)); [lra|].
  rewrite mul_fin. pose proof PI_RGT_0.
  rewrite truediv_fin by lra. reflexivity.
Qed.

Lemma e2bragg_eV_out_of_range (kd : kind) (E : R) :
  E <> 0 ->
  1 < Rabs (12398.42 / d0 / E) ->
  e2bragg_eV n (mk_num kd (Fin E)) = Return (float64 NaN).
Proof.
  intros HE Hq. rewrite e2bragg_eV_finite by exact HE.
  unfold np.arcsin, float64, py, np.pi, py. cbn [nval IEEE.arcsin].
  assert (Hcases : 12398.42 / d0 / E < -1 \/ 1 < 12398.42 / d0 / E).
  { revert Hq. unfold Rabs. destruct (Rcase_abs _); lra. }
  destruct (Rlt_dec (12398.42 / d0 / E) (-1)); [reflexivity|].
  destruct (Rlt_dec 1 (12398.42 / d0 / E)); [reflexivity | lra].
Qed.

(** Angle to energy and back, for a positive sine. *)
Lemma bragg_roundtrip (kd : kind) (t : R) :
  0 < sin (Spec.angle_rad t) ->
  (E <- bragg2e_of_norm n (mk_num kd (Fin t)) 0 ;; e2bragg_of_norm n E)
  = Return (float64 (Fin (asin (sin (Spec.angle_rad t)) * 180 / PI))).
Proof.
  intros Hs. pose proof d0_pos as Hd.
  pose proof (SIN_bound (Spec.angle_rad t)) as [_ Hs1].
  pose proof (sqrt_IZR_ge_1 n n_pos) as Hq.
  rewrite bragg2e_closed_form by (assumption || lra). cbn [bind].
  rewrite lattice_numerator_0. fold d0.
  set (s := sin (Spec.angle_rad t)) in *.
  assert (Hd1 : d0 <= 2 * 5.43102).
  { unfold d0. apply Rle_div_upper; nra. }
  assert (Hds : 0 < d0 * s <= 2 * 5.43102) by nra.
  assert (HE : 100 <= 12398.42 / (d0 * s)).
  { apply Rle_div_lower; lra. }
  unfold e2bragg_of_norm, float64. rewrite unit_step.
  unfold Spec.energy_eV. destruct (Rlt_dec _ 100); [lra|].
  assert (Hqs : 12398.42 / d0 / (12398.42 / (d0 * s)) = s) by (field; lra).
  rewrite e2bragg_eV_in_range; fold d0; rewrite ?Hqs; try lra.
  reflexivity.
Qed.

End E2bragg.

Lemma d0_spec_99 (h k l : Z) :
  Spec.d0 h k l false = 2 * 5.43102 / sqrt (IZR (Macros99.miller_norm h k l)).
Proof.
  unfold Spec.d0. rewrite miller_norm99_squares. f_equal. lra.
Qed.

Lemma angle_deg_of_rad (t : R) : Spec.angle_rad t * 180 / PI = Spec.angle_deg t.
Proof.
  pose proof PI_RGT_0. unfold Spec.angle_rad, Spec.angle_deg.
  destruct (Rlt_dec 1 t); [field; lra | reflexivity].
Qed.

(** C3, as the claim states it, fails: 120 degrees has a non-zero sine,
    and the round trip through [xf_bragg2e] and [xf_e2bragg] of
    [99-macros_99.py] returns 60 degrees, the arcsine being confined to
    [-90, 90] degrees. *)
Lemma bragg_roundtrip_120_gives_60 :
  sin (Spec.angle_rad 120) <> 0
  /\ (E <- Macros99.xf_bragg2e (py 120) 1 1 1 0 ;; Macros99.xf_e2bragg E 1 1 1)
     = Return (float64 (Fin 60))
  /\ 60 <> Spec.angle_deg 120.
Proof.
  pose proof PI_RGT_0 as Hpi.
  assert (Hrad : Spec.angle_rad 120 = PI - PI / 3).
  { rewrite angle_rad_degrees by lra. field. }
  assert (Hsin : sin (Spec.angle_rad 120) = sin (PI / 3)).
  { rewrite Hrad. apply sin_PI_x. }
  assert (Hpos : 0 < sin (Spec.angle_rad 120)).
  { rewrite Hsin. apply sin_gt_0; lra. }
  split; [lra|]. split.
  - assert (Hn : (0 < Macros99.miller_norm 1 1 1)%Z) by reflexivity.
    pose proof (bragg_roundtrip _ Hn Py 120 Hpos) as H.
    unfold py. rewrite xf_bragg2e_99_unfold.
    destruct (bragg2e_of_norm _ _ 0) as [E|e]; [|discriminate H].
    cbn [bind] in H |- *. rewrite xf_e2bragg_99_unfold, H.
    rewrite Hsin, asin_sin by lra. do 3 f_equal. field. lra.
  - unfold Spec.angle_deg. destruct (Rlt_dec 1 120); lra.
Qed.

(** C3, amended.  For a finite angle whose value in radians lies in
    (0, pi/2] and Miller indices that are not all zero, [xf_bragg2e] with
    [LN = 0] followed by [xf_e2bragg] with the same indices returns the
    angle in degrees (exactly, rounding apart).  This is [99-macros_99.py];
    in [99-macros.py] the same holds wherever the radicand it computes is
    positive. *)
Theorem bragg_roundtrip_first_quadrant (kd : kind) (t : R) (h k l : Z) :
  (h <> 0 \/ k <> 0 \/ l <> 0)%Z ->
  0 < Spec.angle_rad t <= PI / 2 ->
  (E <- Macros99.xf_bragg2e (mk_num kd (Fin t)) h k l 0 ;;
   Macros99.xf_e2bragg E h k l)
  = Return (float64 (Fin (Spec.angle_deg t)))
  /\ ((0 < Macros.miller_norm h k l)%Z ->
      (E <- Macros.xf_bragg2e (mk_num kd (Fin t)) h k l 0 ;;
       Macros.xf_e2bragg E h k l)
      = Return (float64 (Fin (Spec.angle_deg t)))).
Proof.
  intros Hm Ht. pose proof PI_RGT_0 as Hpi.
  assert (Hpos : 0 < sin (Spec.angle_rad t)) by (apply sin_gt_0; lra).
  assert (Hasin : asin (sin (Spec.angle_rad t)) = Spec.angle_rad t)
    by (apply asin_sin; lra).
  split; [|intros Hn].
  - pose proof (bragg_roundtrip _ (miller_norm99_pos h k l Hm) kd t Hpos) as H.
    rewrite xf_bragg2e_99_unfold.
    destruct (bragg2e_of_norm _ _ 0) as [E|e]; [|discriminate H].
    cbn [bind] in H |- *.
    now rewrite xf_e2bragg_99_unfold, H, Hasin, angle_deg_of_rad.
  - pose proof (bragg_roundtrip _ Hn kd t Hpos) as H.
    rewrite xf_bragg2e_unfold.
    destruct (bragg2e_of_norm _ _ 0) as [E|e]; [|discriminate H].
    cbn [bind] in H |- *.
    now rewrite xf_e2bragg_unfold, H, Hasin, angle_deg_of_rad.
Qed.

Lemma bragg_roundtrip_first_quadrant_witness :
  (E <- Macros99.xf_bragg2e (py 10) 1 1 1 0 ;; Macros99.xf_e2bragg E 1 1 1)
  = Return (float64 (Fin (Spec.angle_deg 10))).
Proof.
  assert (Hm : (1 <> 0 \/ 1 <> 0 \/ 1 <> 0)%Z) by (left; discriminate).
  assert (Ht : 0 < Spec.angle_rad 10 <= PI / 2).
  { rewrite angle_rad_degrees by lra. pose proof PI_RGT_0. lra. }
  exact (proj1 (bragg_roundtrip_first_quadrant Py 10 1 1 1 Hm Ht)).
Defined.

(** C6, as the claim states it, fails: [xf_e2bragg(1000)] with the default
    indices has an arcsine argument above 1; the call raises nothing and
    returns NaN. *)
Lemma xf_e2bragg_1000_returns_nan :
  1 < Rabs (12398.42 / (Spec.d0 1 1 1 false * Spec.energy_eV 1000))
  /\ Macros99.xf_e2bragg (py 1000) 1 1 1 = Return (float64 NaN).
Proof.
  assert (Hn : (0 < Macros99.miller_norm 1 1 1)%Z) by reflexivity.
  pose proof (sqrt_IZR_ge_1 _ Hn) as Hq.
  assert (HE : Spec.energy_eV 1000 = 1000).
  { unfold Spec.energy_eV. destruct (Rlt_dec 1000 100); lra. }
  assert (Hgt : 1 < 12398.42 / (2 * 5.43102 / sqrt (IZR (Macros99.miller_norm 1 1 1))) / 1000).
  { replace (12398.42 / (2 * 5.43102 / sqrt (IZR (Macros99.miller_norm 1 1 1))) / 1000)
      with (12398.42 / (2 * 5.43102 * 1000) * sqrt (IZR (Macros99.miller_norm 1 1 1)))
      by (field; lra).
    assert (1.1 < 12398.42 / (2 * 5.43102 * 1000)); [|nra].
    apply Rlt_div_lower; lra. }
  split.
  - rewrite HE, d0_spec_99.
    replace (12398.42 / (2 * 5.43102 / sqrt (IZR (Macros99.miller_norm 1 1 1)) * 1000))
      with (12398.42 / (2 * 5.43102 / sqrt (IZR (Macros99.miller_norm 1 1 1))) / 1000)
      by (field; lra).
    rewrite Rabs_pos_eq; lra.
  - rewrite xf_e2bragg_99_unfold. unfold e2bragg_of_norm, py.
    rewrite unit_step, HE.
    apply e2bragg_eV_out_of_range; [exact Hn | lra |].
    rewrite Rabs_pos_eq; lra.
Qed.

(** Zero energy: the quotient is infinite and the arcsine undefined. *)
Lemma e2bragg_eV_zero_energy (n : Z) (kd : kind) :
  (0 < n)%Z -> e2bragg_eV n (mk_num kd (Fin 0)) = Return (float64 NaN).
Proof.
  intros Hn. pose proof (d0_pos n Hn) as Hd. unfold e2bragg_eV.
  rewrite d0_step_pos by exact Hn. cbn [bind].
  unfold py, float64. rewrite truediv_fin by lra. cbn [bind join].
  rewrite truediv_numpy_total by reflexivity. cbn [bind nval IEEE.div].
  destruct (Req_dec_T 0 0); [|lra].
  assert (Hc : 0 < 12398.42 / (2 * 5.43102 / sqrt (IZR n)))
    by (apply Rdiv_lt_0_compat; lra).
  destruct (Req_dec_T _ 0); [lra|].
  unfold IEEE.nonneg. destruct (Rle_dec 0 _); [|lra].
  reflexivity.
Qed.

(** C6, amended.  For every finite energy and Miller indices with
    [0 < h*h + k*k + l*l < 2^64] such that [|12398.42/(d0*energy)| > 1], where
    [energy] is the value after the keV heuristic, a zero energy
    included, [xf_e2bragg] of [99-macros_99.py] raises no error and
    returns NaN to the caller. *)
Theorem xf_e2bragg_arcsine_domain (kd : kind) (E : R) (h k l : Z) :
  (0 < h * h + k * k + l * l < 2 ^ 64)%Z ->
  Spec.energy_eV E = 0
  \/ 1 < Rabs (12398.42 / (Spec.d0 h k l false * Spec.energy_eV E)) ->
  Macros99.xf_e2bragg (mk_num kd (Fin E)) h k l = Return (float64 NaN).
Proof.
  intros Hm Hq.
  assert (Hn : (0 < Macros99.miller_norm h k l)%Z)
    by (rewrite miller_norm99_squares; lia).
  pose proof (sqrt_IZR_pos _ Hn) as Hs.
  rewrite xf_e2bragg_99_unfold. unfold e2bragg_of_norm. rewrite unit_step.
  destruct (Req_dec_T (Spec.energy_eV E) 0) as [H0|HE].
  { rewrite H0. now apply e2bragg_eV_zero_energy. }
  destruct Hq as [H0|Hq]; [contradiction|].
  apply e2bragg_eV_out_of_range; [exact Hn | exact HE |].
  rewrite d0_spec_99 in Hq.
  replace (12398.42 / (2 * 5.43102 / sqrt (IZR (Macros99.miller_norm h k l)))
           / Spec.energy_eV E)
    with (12398.42 / (2 * 5.43102 / sqrt (IZR (Macros99.miller_norm h k l))
                      * Spec.energy_eV E))
    by (field; lra).
  exact Hq.
Qed.

Lemma xf_e2bragg_arcsine_domain_witness :
  Macros99.xf_e2bragg (py 1000) 1 1 1 = Return (float64 NaN)
  /\ Macros99.xf_e2bragg (py 0) 1 1 1 = Return (float64 NaN).
Proof.
  assert (Hm : (0 < 1 * 1 + 1 * 1 + 1 * 1 < 2 ^ 64)%Z) by lia.
  assert (Hq : 1 < Rabs (12398.42 / (Spec.d0 1 1 1 false * Spec.energy_eV 1000))).
  { unfold Spec.energy_eV. destruct (Rlt_dec 1000 100); [lra|].
    rewrite d0_spec_99.
    assert (Hn : (0 < Macros99.miller_norm 1 1 1)%Z) by reflexivity.
    pose proof (sqrt_IZR_ge_1 _ Hn) as Hs.
    set (q := sqrt (IZR (Macros99.miller_norm 1 1 1))) in *.
    assert (H : 1 < 12398.42 / (2 * 5.43102 / q * 1000)).
    { apply Rlt_div_lower.
      - apply Rmult_lt_0_compat; [apply Rdiv_lt_0_compat|]; lra.
      - assert (2 * 5.43102 / q <= 2 * 5.43102) by (apply Rle_div_upper; nra).
        lra. }
    rewrite Rabs_pos_eq; lra. }
  assert (H0 : Spec.energy_eV 0 = 0).
  { unfold Spec.energy_eV. destruct (Rlt_dec 0 100); lra. }
  split.
  - exact (xf_e2bragg_arcsine_domain Py 1000 1 1 1 Hm (or_intror Hq)).
  - exact (xf_e2bragg_arcsine_domain Py 0 1 1 1 Hm (or_introl H0)).
Defined.

(** ** The keV heuristic *)

(** C10.  An energy below 100 is multiplied by 1000 before the conversion,
    in both files; in particular [xf_e2bragg(50)] equals
    [xf_e2bragg(50000)] for the same Miller indices. *)
Theorem xf_e2bragg_keV_heuristic (kd : kind) (E : R) (h k l : Z) :
  E < 100 ->
  Macros.xf_e2bragg (mk_num kd (Fin E)) h k l
  = e2bragg_eV (Macros.miller_norm h k l) (mk_num kd (Fin (E * 1000)))
  /\ Macros99.xf_e2bragg (mk_num kd (Fin E)) h k l
     = e2bragg_eV (Macros99.miller_norm h k l) (mk_num kd (Fin (E * 1000)))
  /\ Macros.xf_e2bragg (py 50) h k l = Macros.xf_e2bragg (py 50000) h k l
  /\ Macros99.xf_e2bragg (py 50) h k l = Macros99.xf_e2bragg (py 50000) h k l.
Proof.
  intros HE.
  assert (Hstep : Spec.energy_eV E = E * 1000).
  { unfold Spec.energy_eV. destruct (Rlt_dec E 100); lra. }
  assert (H50 : Spec.energy_eV 50 = Spec.energy_eV 50000).
  { unfold Spec.energy_eV.
    destruct (Rlt_dec 50 100); destruct (Rlt_dec 50000 100); lra. }
  rewrite !xf_e2bragg_unfold, !xf_e2bragg_99_unfold.
  unfold e2bragg_of_norm, py. rewrite !unit_step, Hstep, H50.
  repeat split.
Qed.

Lemma xf_e2bragg_keV_heuristic_witness :
  Macros99.xf_e2bragg (py 12.66) 1 1 1
  = e2bragg_eV (Macros99.miller_norm 1 1 1) (py (12.66 * 1000))
  /\ Macros99.xf_e2bragg (py 50) 1 1 1 = Macros99.xf_e2bragg (py 50000) 1 1 1.
Proof.
  assert (HE : 12.66 < 100) by lra.
  destruct (xf_e2bragg_keV_heuristic Py 12.66 1 1 1 HE) as (_ & H1 & _ & H2).
  split; [exact H1 | exact H2].
Defined.

(** The heuristic applies once: an energy in [0.1, 100) gives the same
    angle as a thousand times that energy. *)
Lemma xf_e2bragg_keV_same_angle (kd : kind) (E : R) (h k l : Z) :
  0.1 <= E < 100 ->
  Macros99.xf_e2bragg (mk_num kd (Fin E)) h k l
  = Macros99.xf_e2bragg (mk_num kd (Fin (E * 1000))) h k l.
Proof.
  intros HE. rewrite !xf_e2bragg_99_unfold. unfold e2bragg_of_norm.
  rewrite !unit_step. do 3 f_equal. unfold Spec.energy_eV.
  destruct (Rlt_dec E 100); destruct (Rlt_dec (E * 1000) 100); lra.
Qed.

(** ** Detector distance and resolution *)

Lemma atan_pos (x : R) : 0 < x -> 0 < atan x < PI / 2.
Proof.
  intros Hx. pose proof (atan_bound x) as [_ Hub]. split; [|exact Hub].
  rewrite <- atan_0. now apply atan_increasing.
Qed.

Lemma sin_half_atan_pos (x : R) : 0 < x -> 0 < sin (0.5 * atan x).
Proof.
  intros Hx. pose proof (atan_pos x Hx). pose proof PI_RGT_0.
  apply sin_gt_0; lra.
Qed.

Section Resolution.

Variables kz kl kD : kind.
Variables detZ xLambda D : R.

Hypothesis detZ_pos : 0 < detZ.
Hypothesis xLambda_pos : 0 < xLambda.
Hypothesis D_pos : 0 < D.

Let r : R := 0.5 * D / detZ.

Lemma ratio_pos : 0 < r.
Proof. apply Rdiv_lt_0_compat; lra. Qed.

Lemma detZ2recResolution_value :
  xf_detZ2recResolution (mk_num kz (Fin detZ)) (mk_num kl (Fin xLambda))
                        (mk_num kD (Fin D))
  = Return (float64 (Fin (xLambda / (2 * sin (0.5 * atan r))))).
Proof.
  pose proof (sin_half_atan_pos r ratio_pos) as Hs.
  unfold xf_detZ2recResolution, py.
  rewrite mul_fin, truediv_fin by lra. cbn [bind]. fold r.
  unfold np.arctan, np.sin, float64.
  cbn [nval IEEE.arctan PyNum.mul IEEE.mul IEEE.sin nkind join].
  rewrite ?mul_fin, truediv_fin by lra. cbn [join]. now rewrite join_Np_r.
Qed.

Lemma recResolution2detZ_inverse (kr : kind) :
  xf_recResolution2detZ
    (mk_num kr (Fin (xLambda / (2 * sin (0.5 * atan r)))))
    (mk_num kl (Fin xLambda)) (mk_num kD (Fin D))
  = Return (float64 (Fin detZ)).
Proof.
  pose proof ratio_pos as Hr.
  pose proof (sin_half_atan_pos r Hr) as Hs.
  pose proof (atan_pos r Hr) as Ha. pose proof PI_RGT_0 as Hpi.
  set (s := sin (0.5 * atan r)) in *.
  assert (Hq : xLambda / (2 * (xLambda / (2 * s))) = s) by (field; lra).
  assert (Hrec : 0 < xLambda / (2 * s)) by (apply Rdiv_lt_0_compat; lra).
  pose proof (SIN_bound (0.5 * atan r)) as Hb. fold s in Hb.
  unfold xf_recResolution2detZ, py.
  rewrite mul_fin, truediv_fin by lra. cbn [bind]. rewrite Hq.
  unfold np.arcsin, np.tan, float64.
  cbn [nval IEEE.arcsin PyNum.mul IEEE.mul nkind join].
  destruct (Rlt_dec s (-1)); [lra|]. destruct (Rlt_dec 1 s); [lra|].
  cbn [nval IEEE.mul IEEE.tan].
  assert (Hasin : 2 * asin s = atan r).
  { unfold s. rewrite asin_sin by lra. lra. }
  rewrite Hasin.
  assert (Hcos : 0 < cos (atan r)) by (apply cos_gt_0; lra).
  destruct (Req_dec_T (cos (atan r)) 0); [lra|].
  rewrite tan_atan. rewrite mul_fin, truediv_fin by lra.
  rewrite join_Np_r. cbn [bind]. do 3 f_equal. unfold r. field. lra.
Qed.

End Resolution.

(** C4.  For positive distance, wavelength and diameter,
    [xf_detZ2recResolution] followed by [xf_recResolution2detZ] with the
    same wavelength and diameter returns the original distance (exactly,
    rounding apart). *)
Theorem detZ_resolution_roundtrip (kz kl kD : kind) (detZ xLambda D : R) :
  0 < detZ -> 0 < xLambda -> 0 < D ->
  (recResolution <-
     xf_detZ2recResolution (mk_num kz (Fin detZ)) (mk_num kl (Fin xLambda))
                           (mk_num kD (Fin D)) ;;
   xf_recResolution2detZ recResolution (mk_num kl (Fin xLambda))
                         (mk_num kD (Fin D)))
  = Return (float64 (Fin detZ)).
Proof.
  intros Hz Hl HD.
  rewrite detZ2recResolution_value by assumption. cbn [bind].
  now apply recResolution2detZ_inverse.
Qed.

Lemma detZ_resolution_roundtrip_witness :
  (recResolution <- xf_detZ2recResolution (py 200) (py 0.979) D_default ;;
   xf_recResolution2detZ recResolution (py 0.979) D_default)
  = Return (float64 (Fin 200)).
Proof.
  apply (detZ_resolution_roundtrip Py Py Py 200 0.979 327.8); lra.
Defined.

(** *** The worked example: distance 327.8 mm, wavelength 1.0 Å *)

Lemma atan_half_bounds : 0.463647 < atan (1 / 2) < 0.46365.
Proof.
  assert (Hx : 0 <= 1 / 2 <= 1) by lra.
  rewrite atan_eq_ps_atan by lra. unfold ps_atan.
  destruct (Ratan.in_int (1 / 2)) as [h|h]; [|lra].
  destruct (ps_atan_exists_1 (1 / 2) h) as [v Pv].
  pose proof (alternated_series_ineq (Ratan_seq (1 / 2)) v 3
                (Ratan_seq_decreasing _ Hx) (Ratan_seq_converging _ Hx) Pv)
    as H.
  unfold sum_f_R0, tg_alt, Ratan_seq in H.
  cbn [Nat.mul Nat.add pow INR] in H.
  lra.
Qed.

Lemma cos_atan_half : cos (atan (1 / 2)) * cos (atan (1 / 2)) = 4 / 5
                      /\ 0 < cos (atan (1 / 2)).
Proof.
  rewrite cos_atan. unfold Rsqr.
  set (q := sqrt (1 + 1 / 2 * (1 / 2))).
  assert (Hq : 0 < q) by (apply sqrt_lt_R0; lra).
  assert (Hs : q * q = 5 / 4) by (unfold q; rewrite sqrt_sqrt; lra).
  split; [|apply Rdiv_lt_0_compat; lra].
  replace (1 / q * (1 / q)) with (1 / (q * q)) by (field; lra).
  rewrite Hs. lra.
Qed.

Lemma sin_half_atan_half :
  0 < sin (0.5 * atan (1 / 2))
  /\ 2 * (sin (0.5 * atan (1 / 2)) * sin (0.5 * atan (1 / 2)))
     = 1 - cos (atan (1 / 2)).
Proof.
  split; [apply sin_half_atan_pos; lra|].
  replace (atan (1 / 2)) with (2 * (0.5 * atan (1 / 2))) at 3 by lra.
  rewrite cos_2a_sin. lra.
Qed.

Lemma resolution_example_bounds :
  2.1760 < 1 / (2 * sin (0.5 * atan (1 / 2))) < 2.1765.
Proof.
  destruct cos_atan_half as [Hc2 Hc].
  destruct sin_half_atan_half as [Hs Hs2].
  set (c := cos (atan (1 / 2))) in *.
  set (s := sin (0.5 * atan (1 / 2))) in *.
  assert (Hcb : 0.894427 < c < 0.894428) by nra.
  assert (Hsb : 0.229752 < s < 0.229754) by nra.
  split.
  - apply Rlt_div_lower; nra.
  - apply Rlt_div_upper; nra.
Qed.

Lemma example_ratio : 0.5 * 327.8 / 327.8 = 1 / 2.
Proof. lra. Qed.

Lemma resolution_example_value :
  xf_detZ2recResolution (py 327.8) (py 1.0) D_default
  = Return (float64 (Fin (1 / (2 * sin (0.5 * atan (1 / 2)))))).
Proof.
  unfold D_default, py.
  rewrite detZ2recResolution_value by lra.
  rewrite example_ratio. do 3 f_equal. lra.
Qed.

(** C9, as the claim states it, fails: for distance 327.8 mm and
    wavelength 1.0 Å the returned resolution is above 2 Å, so it is not
    1.057 Å to within the last digit given (nor to within 1 Å). *)
Lemma resolution_example_is_not_1_057 :
  exists r : R,
    xf_detZ2recResolution (py 327.8) (py 1.0) D_default
    = Return (float64 (Fin r))
    /\ ~ Spec.approx 0.001 r 1.057
    /\ ~ Spec.approx 1 r 1.057.
Proof.
  exists (1 / (2 * sin (0.5 * atan (1 / 2)))).
  pose proof resolution_example_bounds as Hb.
  split; [exact resolution_example_value|].
  unfold Spec.approx. rewrite Rabs_pos_eq by lra. split; lra.
Qed.

(** C9, amended.  [xf_detZ2recResolution(327.8, 1.0)] with the default
    diameter takes the arctangent of 0.5, which is 0.4636 rad to four
    places, and returns a resolution of 2.176 Å to three places (not
    1.057 Å); [xf_recResolution2detZ] maps that result back to 327.8 mm. *)
Theorem resolution_example :
  exists a r : R,
    np.arctan (py (0.5 * 327.8 / 327.8)) = float64 (Fin a)
    /\ Spec.approx 0.00005 a 0.4636
    /\ xf_detZ2recResolution (py 327.8) (py 1.0) D_default
       = Return (float64 (Fin r))
    /\ r = 1.0 / (2 * sin (0.5 * a))
    /\ Spec.approx 0.0005 r 2.176
    /\ xf_recResolution2detZ (float64 (Fin r)) (py 1.0) D_default
       = Return (float64 (Fin 327.8)).
Proof.
  exists (atan (1 / 2)), (1 / (2 * sin (0.5 * atan (1 / 2)))).
  pose proof atan_half_bounds as Ha. pose proof resolution_example_bounds as Hr.
  repeat split.
  - unfold np.arctan, py. cbn [nval IEEE.arctan]. now rewrite example_ratio.
  - unfold Spec.approx. rewrite Rabs_pos_eq; lra.
  - exact resolution_example_value.
  - lra.
  - unfold Spec.approx. rewrite Rabs_pos_eq; lra.
  - pose proof (recResolution2detZ_inverse Py Py 327.8 1.0 327.8
                  ltac:(lra) ltac:(lra) ltac:(lra) Np) as H.
    rewrite example_ratio in H.
    replace (1.0 / (2 * sin (0.5 * atan (1 / 2))))
      with (1 / (2 * sin (0.5 * atan (1 / 2)))) in H by lra.
    exact H.
Qed.

(** ** Electrode stepping *)

Lemma existsb_eqb_In (s : string) (l : list string) :
  existsb (String.eqb s) l = true <-> In s l.
Proof.
  rewrite existsb_exists. split.
  - intros (x & Hx & He). apply String.eqb_eq in He. now subst.
  - intros H. exists s. split; [exact H | apply String.eqb_refl].
Qed.

Lemma prefix_of_allowed (bimorph : string) :
  In bimorph allowed_bimorphs -> exists prefix, prefix_of bimorph = Return prefix.
Proof.
  intros [<-|[<-|[]]]; cbn; eauto.
Qed.

Lemma diff_too_large_spec (diffs : list R) :
  diff_too_large diffs = true <-> exists d, In d diffs /\ 500 < Rabs d.
Proof.
  induction diffs as [|x rest IH]; cbn.
  - split; [discriminate | intros (d & [] & _)].
  - destruct (Rlt_dec 500 (Rabs x)) as [Hx|Hx].
    + split; [eauto | reflexivity].
    + rewrite IH. split.
      * intros (d & Hd & Hgt). eauto.
      * intros (d & [<-|Hd] & Hgt); [contradiction | eauto].
Qed.

Lemma length_update_nth (l : list R) (n : nat) (f : R -> R) :
  List.length (update_nth l n f) = List.length l.
Proof.
  revert n. induction l as [|x l IH]; intros [|n]; cbn; auto.
Qed.

Lemma length_range (a b : Z) : List.length (range a b) = Z.to_nat (b - a).
Proof. unfold range. now rewrite length_map, length_seq. Qed.

(** Inside the vector both updates succeed. *)
Lemma step_demands_total (demands : list R) (i : Z) (step : R) :
  (0 <= i < Z.of_nat (List.length demands))%Z ->
  exists new_demands,
    step_demands demands i step = Return new_demands
    /\ List.length new_demands = List.length demands.
Proof.
  intros Hi. unfold step_demands, isub, iadd, py_index.
  destruct (i >? 0)%Z eqn:Hpos.
  - apply Z.gtb_lt in Hpos.
    replace ((0 <=? i - 1) && (i - 1 <? Z.of_nat (List.length demands)))%Z
      with true by (symmetry; apply andb_true_iff; split; lia).
    cbn [bind]. rewrite length_update_nth.
    replace ((0 <=? i) && (i <? Z.of_nat (List.length demands)))%Z
      with true by (symmetry; apply andb_true_iff; split; lia).
    cbn [bind]. eexists. split; [reflexivity|]. now rewrite !length_update_nth.
  - cbn [bind].
    replace ((0 <=? i) && (i <? Z.of_nat (List.length demands)))%Z
      with true by (symmetry; apply andb_true_iff; split; lia).
    cbn [bind]. eexists. split; [reflexivity|]. now rewrite length_update_nth.
Qed.

Section SetInfluence.

Variable Hw : Type.
Variable pv_get : Hw -> string -> R.
Variable pv_put : Hw -> string -> Z -> bool -> Hw.

Lemma get_all_run (pvs : list string) (w : world Hw) :
  get_all pv_get pvs w
  = (mk_world (hw w) (trace w ++ map Get pvs), Return (map (pv_get (hw w)) pvs)).
Proof.
  revert w. induction pvs as [|pv rest IH]; intros [h tr].
  - cbn. now rewrite app_nil_r.
  - cbn [get_all]. unfold io_bind, get. cbn [hw trace].
    rewrite IH. cbn [hw trace ret map]. now rewrite <- app_assoc.
Qed.

(** *** Validation *)

Lemma set_influence_bad_bimorph (electrode : Z) (bimorph : string) (bank : Z)
      (w : world Hw) :
  ~ In bimorph allowed_bimorphs ->
  set_influence pv_get pv_put electrode bimorph bank w
  = (mk_world (hw w)
       (trace w ++ [Print [PStr "bimorph should be one of";
                           PTuple allowed_bimorphs]]),
     Return tt).
Proof.
  intros Hb. unfold set_influence.
  destruct (existsb (String.eqb bimorph) allowed_bimorphs) eqn:He.
  - now apply existsb_eqb_In in He.
  - reflexivity.
Qed.

Lemma set_influence_bad_electrode (electrode : Z) (bimorph : string) (bank : Z)
      (w : world Hw) :
  In bimorph allowed_bimorphs ->
  (electrode < 0 \/ 31 < electrode)%Z ->
  set_influence pv_get pv_put electrode bimorph bank w
  = (mk_world (hw w)
       (trace w ++ [Print [PStr "electrode must be between 0 and 31"]]),
     Return tt).
Proof.
  intros Hb He. unfold set_influence.
  apply existsb_eqb_In in Hb. rewrite Hb. cbn [negb].
  replace ((electrode <? 0) || (electrode >? 31))%Z with true; [reflexivity|].
  symmetry. apply orb_true_iff. rewrite Z.ltb_lt, Z.gtb_lt. lia.
Qed.

End SetInfluence.

Lemma prefix_of_Return_allowed (bimorph prefix : string) :
  prefix_of bimorph = Return prefix -> In bimorph allowed_bimorphs.
Proof.
  unfold prefix_of, allowed_bimorphs.
  destruct (String.eqb_spec bimorph "hfm") as [->|_]; [now left|].
  destruct (String.eqb_spec bimorph "kb") as [->|_]; [now right; left|].
  discriminate.
Qed.

Lemma filter_write_gets (pvs : list string) : filter is_write (map Get pvs) = [].
Proof. induction pvs; cbn; auto. Qed.

Section SetInfluenceRun.

Variable Hw : Type.
Variable pv_get : Hw -> string -> R.
Variable pv_put : Hw -> string -> Z -> bool -> Hw.

Variables (electrode : Z) (bimorph : string) (bank : Z) (w : world Hw).
Variable prefix : string.

Hypothesis prefix_ok : prefix_of bimorph = Return prefix.
Hypothesis electrode_ok : (0 <= electrode <= 31)%Z.

Let bank_pv : string := (prefix ++ "BANK_NO_32")%string.
Let incr_pv : string := (prefix ++ "INCR_U_CMD.A")%string.
Let decr_pv : string := (prefix ++ "DECR_U_CMD.A")%string.
Let step_pv : string := (prefix ++ "U_STEP_MON.A")%string.
Let demand_pvs : list string :=
  map (fun i => (prefix ++ "U" ++ format_int i ++ "_CURRENT_MON")%string)
      (range ((bank - 1) * 16) (bank * 16)).

(** The hardware after the bank selection, and what is read from it. *)
Let hw1 : Hw := pv_put (hw w) bank_pv (bank - 1) true.
Let step : R := pv_get hw1 step_pv.
Let demands : list R := map (pv_get hw1) demand_pvs.
Let i : Z := if (electrode <? 16)%Z then electrode else (electrode - 16)%Z.

(** The events up to the end of the readings. *)
Let readings : list event :=
  Put bank_pv (bank - 1) true :: Sleep 0.5 :: Get step_pv :: map Get demand_pvs.

Lemma electrode_index_range : (0 <= i < 16)%Z.
Proof. unfold i. destruct (Z.ltb_spec electrode 16); lia. Qed.

Lemma demands_length : List.length demands = 16%nat.
Proof.
  unfold demands, demand_pvs. rewrite !length_map, length_range.
  replace (bank * 16 - (bank - 1) * 16)%Z with 16%Z by ring. reflexivity.
Qed.

Lemma recomputed_demands_exist :
  exists new_demands, step_demands demands i step = Return new_demands
                      /\ List.length new_demands = 16%nat.
Proof.
  pose proof electrode_index_range as Hi. pose proof demands_length as Hl.
  destruct (step_demands_total demands i step) as (nd & H1 & H2).
  - rewrite Hl. cbn. lia.
  - exists nd. split; [exact H1 | congruence].
Qed.

Variable new_demands : list R.
Hypothesis recomputed : step_demands demands i step = Return new_demands.

(** Everything up to the safety check. *)
Lemma set_influence_run :
  set_influence pv_get pv_put electrode bimorph bank w
  = (if diff_too_large (np_diff new_demands) then
       print [PStr "got difference between values larger than 500"]
     else
       ((if (i >? 0)%Z then
           print [PStr "decrementing electrode"; PInt (electrode - 1);
                     PStr "by"; PNum step] ;;
           put pv_put decr_pv (electrode - 1) false
         else ret tt) ;;
        print [PStr "incrementing electrode"; PInt electrode;
                  PStr "by"; PNum step] ;;
        put pv_put incr_pv electrode false)%io)
      (mk_world hw1 (trace w ++ readings)).
Proof.
  unfold set_influence.
  pose proof (prefix_of_Return_allowed _ _ prefix_ok) as Hb.
  apply existsb_eqb_In in Hb. rewrite Hb. cbn [negb].
  replace ((electrode <? 0) || (electrode >? 31))%Z with false.
  2:{ symmetry. apply orb_false_iff. rewrite Z.gtb_ltb, !Z.ltb_ge. lia. }
  rewrite prefix_ok.
  unfold io_bind at 1. unfold lift at 1.
  unfold io_bind at 1. unfold put at 1.
  unfold io_bind at 1. unfold sleep at 1, emit at 1. cbn [hw trace].
  unfold io_bind at 1. unfold get at 1. cbn [hw trace].
  unfold io_bind at 1. rewrite get_all_run. cbn [hw trace].
  fold bank_pv step_pv demand_pvs hw1. fold step. fold demands. fold i.
  unfold io_bind at 1. unfold lift at 1. rewrite recomputed.
  fold incr_pv decr_pv.
  assert (Htr : (((trace w ++ [Put bank_pv (bank - 1) true]) ++ [Sleep 0.5])
                   ++ [Get step_pv]) ++ map Get demand_pvs
                = trace w ++ readings)
    by (unfold readings; now rewrite <- !app_assoc).
  now rewrite Htr.
Qed.

End SetInfluenceRun.

(** C8.  With a bimorph outside ('hfm', 'kb'), or an electrode outside
    [0, 31], [set_influence] prints the condition that failed and returns:
    the hardware state is the one it started from and the session gains
    that one [print] and no [get] or [put]. *)
Theorem set_influence_validation (Hw : Type) (pv_get : Hw -> string -> R)
    (pv_put : Hw -> string -> Z -> bool -> Hw)
    (electrode : Z) (bimorph : string) (bank : Z) (w : world Hw) :
  ~ In bimorph allowed_bimorphs \/ (electrode < 0)%Z \/ (31 < electrode)%Z ->
  set_influence pv_get pv_put electrode bimorph bank w
  = (mk_world (hw w)
       (trace w ++
        [Print (if existsb (String.eqb bimorph) allowed_bimorphs
                then [PStr "electrode must be between 0 and 31"]
                else [PStr "bimorph should be one of";
                      PTuple allowed_bimorphs])]),
     Return tt).
Proof.
  intros H.
  destruct (existsb (String.eqb bimorph) allowed_bimorphs) eqn:Hb.
  - apply existsb_eqb_In in Hb.
    apply set_influence_bad_electrode; [exact Hb | tauto].
  - apply set_influence_bad_bimorph. intros Hin.
    apply existsb_eqb_In in Hin. congruence.
Qed.

Lemma set_influence_validation_witness :
  set_influence Bench.pv_get Bench.pv_put 32 "kb" 2 Bench.start
  = (mk_world tt [Print [PStr "electrode must be between 0 and 31"]], Return tt)
  /\ set_influence Bench.pv_get Bench.pv_put 3 "vfm" 1 Bench.start
     = (mk_world tt [Print [PStr "bimorph should be one of";
                            PTuple allowed_bimorphs]], Return tt).
Proof.
  split.
  - apply (set_influence_validation unit Bench.pv_get Bench.pv_put 32 "kb" 2
             Bench.start).
    right; right. reflexivity.
  - apply (set_influence_validation unit Bench.pv_get Bench.pv_put 3 "vfm" 1
             Bench.start).
    left. intros [H|[H|[]]]; discriminate H.
Defined.

Lemma bench_recomputed :
  let prefix := "XF:17IDC-OP:FMX{Mir:KB-PS}:"%string in
  let hw1 := Bench.pv_put tt (prefix ++ "BANK_NO_32")%string (1 - 1) true in
  step_demands
    (map (Bench.pv_get hw1)
       (map (fun i => (prefix ++ "U" ++ format_int i ++ "_CURRENT_MON")%string)
          (range ((1 - 1) * 16) (1 * 16))))
    (if (5 <? 16)%Z then 5 else 5 - 16)%Z
    (Bench.pv_get hw1 (prefix ++ "U_STEP_MON.A")%string)
  = Return [0; 0; 0; 0; 0 - 300; 0 + 300; 0; 0; 0; 0; 0; 0; 0; 0; 0; 0].
Proof. reflexivity. Qed.

Lemma bench_diff_exceeds :
  exists d : R,
    In d (np_diff [0; 0; 0; 0; 0 - 300; 0 + 300; 0; 0; 0; 0; 0; 0; 0; 0; 0; 0])
    /\ 500 < Rabs d.
Proof.
  exists (0 + 300 - (0 - 300)). split.
  - cbn. do 4 right. now left.
  - rewrite Rabs_pos_eq; lra.
Qed.

(** C7, as the claim states it, fails: on the bench, [set_influence(5,
    'kb', 1)] recomputes a demand vector with an adjacent difference of
    600, prints the message and returns, and by then the bank selection has
    been written to the hardware. *)
Lemma set_influence_abort_has_written_bank :
  exists w' : world unit,
    set_influence Bench.pv_get Bench.pv_put 5 "kb" 1 Bench.start
    = (w', Return tt)
    /\ last (trace w') (Sleep 0)
       = Print [PStr "got difference between values larger than 500"]
    /\ filter is_write (trace w')
       = [Put "XF:17IDC-OP:FMX{Mir:KB-PS}:BANK_NO_32" 0 true]
    /\ filter is_write (trace w') <> [].
Proof.
  pose proof (set_influence_run unit Bench.pv_get Bench.pv_put 5 "kb" 1
                Bench.start "XF:17IDC-OP:FMX{Mir:KB-PS}:" eq_refl
                ltac:(lia) _ bench_recomputed) as Hrun.
  cbv zeta in Hrun.
  pose proof bench_diff_exceeds as Hd. apply diff_too_large_spec in Hd.
  rewrite Hd in Hrun. rewrite Hrun.
  eexists. split; [reflexivity|]. cbn. repeat split. discriminate.
Qed.

(** C7, amended.  When the recomputed demand vector has an adjacent
    difference whose absolute value exceeds 500, [set_influence] prints
    the message and returns without the decrement and the increment
    command.  The session then holds the bank selection
    [put(bank-1, wait=True)], the sleep and the seventeen readings, followed
    by the message: the bank selection is the one write issued, and it is
    issued before the check. *)
Theorem set_influence_safety_abort (Hw : Type) (pv_get : Hw -> string -> R)
    (pv_put : Hw -> string -> Z -> bool -> Hw)
    (electrode : Z) (bimorph : string) (bank : Z) (w : world Hw)
    (prefix : string) (new_demands : list R) :
  prefix_of bimorph = Return prefix ->
  (0 <= electrode <= 31)%Z ->
  let bank_pv := (prefix ++ "BANK_NO_32")%string in
  let step_pv := (prefix ++ "U_STEP_MON.A")%string in
  let demand_pvs :=
    map (fun i => (prefix ++ "U" ++ format_int i ++ "_CURRENT_MON")%string)
        (range ((bank - 1) * 16) (bank * 16)) in
  let hw1 := pv_put (hw w) bank_pv (bank - 1)%Z true in
  let step := pv_get hw1 step_pv in
  let demands := map (pv_get hw1) demand_pvs in
  let i := if (electrode <? 16)%Z then electrode else (electrode - 16)%Z in
  step_demands demands i step = Return new_demands ->
  (exists d, In d (np_diff new_demands) /\ 500 < Rabs d) ->
  exists events : list event,
    set_influence pv_get pv_put electrode bimorph bank w
    = (mk_world hw1 (trace w ++ events), Return tt)
    /\ events
       = Put bank_pv (bank - 1)%Z true :: Sleep 0.5 :: Get step_pv
         :: map Get demand_pvs
         ++ [Print [PStr "got difference between values larger than 500"]]
    /\ filter is_write events = [Put bank_pv (bank - 1)%Z true].
Proof.
  intros Hp He bank_pv step_pv demand_pvs hw1 step demands i Hnd Hd.
  pose proof (set_influence_run Hw pv_get pv_put electrode bimorph bank w
                prefix Hp He new_demands Hnd) as Hrun.
  cbv zeta in Hrun. apply diff_too_large_spec in Hd. rewrite Hd in Hrun.
  eexists. split; [|split; [reflexivity|]].
  - rewrite Hrun. unfold print, emit. cbn [hw trace].
    fold bank_pv step_pv demand_pvs hw1.
    rewrite <- app_assoc. reflexivity.
  - cbn [filter is_write]. rewrite filter_app, filter_write_gets. reflexivity.
Qed.

Lemma set_influence_safety_abort_witness :
  exists events : list event,
    set_influence Bench.pv_get Bench.pv_put 5 "kb" 1 Bench.start
    = (mk_world tt events, Return tt)
    /\ filter is_write events
       = [Put "XF:17IDC-OP:FMX{Mir:KB-PS}:BANK_NO_32" 0 true].
Proof.
  destruct (set_influence_safety_abort unit Bench.pv_get Bench.pv_put 5 "kb" 1
              Bench.start "XF:17IDC-OP:FMX{Mir:KB-PS}:"
              [0; 0; 0; 0; 0 - 300; 0 + 300; 0; 0; 0; 0; 0; 0; 0; 0; 0; 0]
              eq_refl ltac:(lia) eq_refl bench_diff_exceeds)
    as (events & Hrun & _ & Hw).
  exists events. split; [exact Hrun | exact Hw].
Defined.

(** Below the bound both commands are issued, the decrement first. *)
Lemma set_influence_steps (Hw : Type) (pv_get : Hw -> string -> R)
    (pv_put : Hw -> string -> Z -> bool -> Hw)
    (electrode : Z) (bimorph : string) (bank : Z) (w : world Hw)
    (prefix : string) (new_demands : list R) :
  prefix_of bimorph = Return prefix ->
  (0 < electrode <= 31)%Z -> electrode <> 16%Z ->
  let bank_pv := (prefix ++ "BANK_NO_32")%string in
  let step_pv := (prefix ++ "U_STEP_MON.A")%string in
  let demand_pvs :=
    map (fun i => (prefix ++ "U" ++ format_int i ++ "_CURRENT_MON")%string)
        (range ((bank - 1) * 16) (bank * 16)) in
  let hw1 := pv_put (hw w) bank_pv (bank - 1)%Z true in
  let step := pv_get hw1 step_pv in
  let demands := map (pv_get hw1) demand_pvs in
  let i := if (electrode <? 16)%Z then electrode else (electrode - 16)%Z in
  step_demands demands i step = Return new_demands ->
  diff_too_large (np_diff new_demands) = false ->
  exists w' : world Hw,
    set_influence pv_get pv_put electrode bimorph bank w = (w', Return tt)
    /\ filter is_write (trace w')
       = filter is_write (trace w)
         ++ [Put bank_pv (bank - 1)%Z true;
             Put (prefix ++ "DECR_U_CMD.A")%string (electrode - 1)%Z false;
             Put (prefix ++ "INCR_U_CMD.A")%string electrode false].
Proof.
  intros Hp He H16 bank_pv step_pv demand_pvs hw1 step demands i Hnd Hd.
  pose proof (set_influence_run Hw pv_get pv_put electrode bimorph bank w
                prefix Hp ltac:(lia) new_demands Hnd) as Hrun.
  cbv zeta in Hrun. rewrite Hd in Hrun.
  assert (Hi : (i >? 0)%Z = true).
  { apply Z.gtb_lt. unfold i. destruct (Z.ltb_spec electrode 16); lia. }
  fold i in Hrun. rewrite Hi in Hrun.
  eexists. split; [rewrite Hrun; reflexivity|].
  cbn [trace]. rewrite !filter_app. cbn [filter is_write].
  rewrite filter_write_gets. cbn [app]. now rewrite <- !app_assoc.
Qed.


(** * Further properties of the conversions *)

Lemma Return_Fin_eq (x y : R) :
  x = y -> Return (float64 (Fin x)) = Return (float64 (Fin y)).
Proof. now intros ->. Qed.

Lemma asin_pos (q : R) : 0 < q <= 1 -> 0 < asin q <= PI / 2.
Proof.
  intros Hq. pose proof (asin_bound q) as Hb. split; [|lra].
  pose proof PI_RGT_0.
  apply sin_increasing_0; try lra.
  rewrite sin_0, sin_asin; lra.
Qed.

Lemma asin_lt (x y : R) : -1 <= x -> y <= 1 -> x < y -> asin x < asin y.
Proof.
  intros Hx Hy Hxy. pose proof (asin_bound x). pose proof (asin_bound y).
  apply sin_increasing_0; try lra. rewrite !sin_asin; lra.
Qed.

Section EnergyAngleEnergy.

Variable n : Z.
Hypothesis n_pos : (0 < n)%Z.

Variable E : R.
Hypothesis E_eV : 100 <= E.

Let d0 : R := 2 * 5.43102 / sqrt (IZR n).
Let q : R := 12398.42 / d0 / E.

Hypothesis in_domain : q <= 1.

Lemma spacing_pos : 0 < d0.
Proof. exact (d0_pos n n_pos). Qed.

Lemma sine_pos : 0 < q.
Proof.
  pose proof spacing_pos. unfold q.
  apply Rdiv_lt_0_compat; [apply Rdiv_lt_0_compat|]; lra.
Qed.

(** The angle [xf_e2bragg] returns for an energy given in eV. *)
Lemma e2bragg_value (kd : kind) :
  e2bragg_of_norm n (mk_num kd (Fin E))
  = Return (float64 (Fin (asin q * 180 / PI))).
Proof.
  pose proof sine_pos as Hq. unfold e2bragg_of_norm. rewrite unit_step.
  unfold Spec.energy_eV. destruct (Rlt_dec E 100); [lra|].
  apply e2bragg_eV_in_range; [exact n_pos | lra |]. fold d0. fold q. lra.
Qed.

Lemma e2bragg_angle_range : 0 < asin q * 180 / PI <= 90.
Proof.
  pose proof sine_pos as Hq. pose proof PI_RGT_0 as Hpi.
  destruct (asin_pos q) as [Ha Hb]; [lra|].
  split.
  - apply Rdiv_lt_0_compat; lra.
  - apply Rle_div_upper; lra.
Qed.

(** Above one degree [xf_bragg2e] reads the angle as degrees and gives the
    energy back. *)
Lemma energy_roundtrip (kd : kind) :
  1 < asin q * 180 / PI ->
  (t <- e2bragg_of_norm n (mk_num kd (Fin E)) ;; bragg2e_of_norm n t 0)
  = Return (float64 (Fin E)).
Proof.
  intros Hdeg. pose proof sine_pos as Hq. pose proof spacing_pos as Hd.
  pose proof PI_RGT_0 as Hpi.
  rewrite e2bragg_value. cbn [bind]. unfold float64.
  assert (Hrad : Spec.angle_rad (asin q * 180 / PI) = asin q).
  { rewrite angle_rad_degrees by exact Hdeg. field. lra. }
  assert (Hsin : sin (Spec.angle_rad (asin q * 180 / PI)) = q).
  { rewrite Hrad. apply sin_asin. lra. }
  rewrite bragg2e_closed_form by (assumption || lra).
  rewrite Hsin, lattice_numerator_0. fold d0.
  apply Return_Fin_eq. unfold q. field. lra.
Qed.

(** At one degree or less the angle is read as radians, and the energy that
    comes back is too small. *)
Lemma energy_roundtrip_small_angle (kd : kind) :
  asin q * 180 / PI <= 1 ->
  exists E' : R,
    (t <- e2bragg_of_norm n (mk_num kd (Fin E)) ;; bragg2e_of_norm n t 0)
    = Return (float64 (Fin E'))
    /\ 0 < E' < E.
Proof.
  intros Hdeg. pose proof sine_pos as Hq. pose proof spacing_pos as Hd.
  pose proof PI_RGT_0 as Hpi. pose proof PI_4 as Hpi4. pose proof PI2_1 as Hpi2.
  destruct (asin_pos q) as [Ha Hb]; [lra|].
  pose proof e2bragg_angle_range as [Ht0 _].
  set (t := asin q * 180 / PI) in *.
  assert (Hlt : asin q < t).
  { unfold t. apply Rlt_div_lower; [lra|]. nra. }
  assert (Hs : q < sin t).
  { rewrite <- (sin_asin q) by lra. apply sin_increasing_1; lra. }
  rewrite e2bragg_value. cbn [bind]. unfold float64. fold t.
  rewrite bragg2e_closed_form by (try assumption; rewrite angle_rad_radians; lra).
  rewrite angle_rad_radians, lattice_numerator_0 by lra. fold d0.
  eexists. split; [reflexivity|].
  assert (Hds : 0 < d0 * sin t) by nra.
  split; [apply Rdiv_lt_0_compat; lra|].
  apply Rlt_div_upper; [exact Hds|].
  assert (HE : E * (d0 * q) = 12398.42) by (unfold q; field; lra).
  nra.
Qed.

End EnergyAngleEnergy.

Lemma atan_le_id (y : R) : 0 < y < 1 -> atan y <= y.
Proof.
  intros Hy. assert (Hx : 0 <= y <= 1) by lra.
  rewrite atan_eq_ps_atan by lra. unfold ps_atan.
  destruct (Ratan.in_int y) as [h|h]; [|lra].
  destruct (ps_atan_exists_1 y h) as [v Pv].
  pose proof (alternated_series_ineq (Ratan_seq y) v 0
                (Ratan_seq_decreasing _ Hx) (Ratan_seq_converging _ Hx) Pv)
    as [_ H].
  unfold sum_f_R0, tg_alt, Ratan_seq in H.
  cbn [Nat.mul Nat.add pow INR] in H. lra.
Qed.

(** For a small sine the angle is at most one percent above it. *)
Lemma asin_small (q : R) : 0 < q <= 0.1 -> asin q <= q / 0.99.
Proof.
  intros Hq. rewrite asin_atan by lra. unfold Rsqr.
  assert (Hs : 0.99 <= sqrt (1 - q * q)).
  { rewrite <- (sqrt_square 0.99) by lra. apply sqrt_le_1_alt. nra. }
  assert (Hy : q / sqrt (1 - q * q) <= q / 0.99).
  { apply Rle_div_upper; [lra|].
    replace (q / 0.99 * sqrt (1 - q * q))
      with (q * (sqrt (1 - q * q) / 0.99)) by (field; lra).
    assert (1 <= sqrt (1 - q * q) / 0.99) by (apply Rle_div_lower; lra). nra. }
  assert (Hy0 : 0 < q / sqrt (1 - q * q)) by (apply Rdiv_lt_0_compat; lra).
  assert (Hq99 : q / 0.99 <= 0.102).
  { apply Rle_div_upper; lra. }
  pose proof (atan_le_id (q / sqrt (1 - q * q))). lra.
Qed.

(** A sine above pi/180 belongs to an angle above one degree. *)
Lemma asin_above_one_degree (q : R) :
  PI / 180 < q <= 1 -> 1 < asin q * 180 / PI.
Proof.
  intros Hq. pose proof PI_RGT_0 as Hpi. pose proof PI_4 as Hpi4.
  assert (Hs : sin (PI / 180) < PI / 180) by (apply sin_lt_x; lra).
  assert (Ha : PI / 180 < asin q).
  { rewrite <- (asin_sin (PI / 180)) by lra.
    pose proof (SIN_bound (PI / 180)). apply asin_lt; lra. }
  apply Rlt_div_lower; lra.
Qed.

(** Bounds of the arcsine argument for the Si(111) reflection. *)
Lemma sine_111_bounds (E : R) :
  0 < E ->
  12398.42 / (2 * 5.43102 * E) <= 12398.42 / Spec.d0 1 1 1 false / E
  /\ 12398.42 / Spec.d0 1 1 1 false / E <= 2 * 12398.42 / (2 * 5.43102 * E).
Proof.
  intros HE. rewrite d0_spec_99.
  assert (Hn : (0 < Macros99.miller_norm 1 1 1)%Z) by reflexivity.
  pose proof (sqrt_IZR_ge_1 _ Hn) as H1.
  assert (H2 : sqrt (IZR (Macros99.miller_norm 1 1 1)) <= 2).
  { rewrite <- (sqrt_square 2) by lra. apply sqrt_le_1_alt.
    change (Macros99.miller_norm 1 1 1) with 3%Z. lra. }
  set (s := sqrt (IZR (Macros99.miller_norm 1 1 1))) in *.
  replace (12398.42 / (2 * 5.43102 / s) / E)
    with (12398.42 / (2 * 5.43102 * E) * s) by (field; lra).
  replace (2 * 12398.42 / (2 * 5.43102 * E))
    with (12398.42 / (2 * 5.43102 * E) * 2) by (field; lra).
  assert (0 < 12398.42 / (2 * 5.43102 * E)) by (apply Rdiv_lt_0_compat; nra).
  split; nra.
Qed.

(** X1.  Energy to angle and back: for an energy of at least 100 eV whose
    Bragg angle exists and exceeds one degree, [xf_e2bragg] followed by
    [xf_bragg2e] with [LN = 0] returns the energy. *)
Theorem xf_bragg2e_after_xf_e2bragg (kd : kind) (E : R) (h k l : Z) :
  (h <> 0 \/ k <> 0 \/ l <> 0)%Z ->
  100 <= E ->
  12398.42 / Spec.d0 h k l false / E <= 1 ->
  1 < asin (12398.42 / Spec.d0 h k l false / E) * 180 / PI ->
  (t <- Macros99.xf_e2bragg (mk_num kd (Fin E)) h k l ;;
   Macros99.xf_bragg2e t h k l 0)
  = Return (float64 (Fin E)).
Proof.
  intros Hm HE Hq Hdeg. rewrite d0_spec_99 in Hq, Hdeg.
  pose proof (energy_roundtrip _ (miller_norm99_pos h k l Hm) E HE Hq kd Hdeg)
    as H.
  rewrite xf_e2bragg_99_unfold.
  destruct (e2bragg_of_norm _ _) as [t|e]; [|discriminate H].
  cbn [bind] in H |- *. now rewrite xf_bragg2e_99_unfold.
Qed.

Lemma xf_bragg2e_after_xf_e2bragg_witness :
  (t <- Macros99.xf_e2bragg (py 12660) 1 1 1 ;; Macros99.xf_bragg2e t 1 1 1 0)
  = Return (float64 (Fin 12660)).
Proof.
  assert (Hm : (1 <> 0 \/ 1 <> 0 \/ 1 <> 0)%Z) by (left; discriminate).
  destruct (sine_111_bounds 12660 ltac:(lra)) as [Hlo Hhi].
  assert (H1 : 0.08 <= 12398.42 / (2 * 5.43102 * 12660))
    by (apply Rle_div_lower; lra).
  assert (H2 : 2 * 12398.42 / (2 * 5.43102 * 12660) <= 0.2)
    by (apply Rle_div_upper; lra).
  pose proof PI_4 as Hpi4. pose proof PI_RGT_0 as Hpi.
  apply (xf_bragg2e_after_xf_e2bragg Py 12660 1 1 1 Hm); try lra.
  apply asin_above_one_degree. lra.
Defined.

(** X2.  The same composition at a Bragg angle of one degree or less:
    [xf_bragg2e] reads the angle as radians, and the energy that comes
    back is positive but strictly below the one that went in. *)
Theorem xf_bragg2e_after_xf_e2bragg_small_angle (kd : kind) (E : R)
    (h k l : Z) :
  (h <> 0 \/ k <> 0 \/ l <> 0)%Z ->
  100 <= E ->
  asin (12398.42 / Spec.d0 h k l false / E) * 180 / PI <= 1 ->
  exists E' : R,
    (t <- Macros99.xf_e2bragg (mk_num kd (Fin E)) h k l ;;
     Macros99.xf_bragg2e t h k l 0)
    = Return (float64 (Fin E'))
    /\ 0 < E' < E.
Proof.
  intros Hm HE Hdeg. rewrite d0_spec_99 in Hdeg.
  pose proof (miller_norm99_pos h k l Hm) as Hn.
  assert (Hq : 12398.42 / (2 * 5.43102 / sqrt (IZR (Macros99.miller_norm h k l)))
               / E <= 1).
  { destruct (Rle_dec (12398.42 / (2 * 5.43102 /
                sqrt (IZR (Macros99.miller_norm h k l))) / E) 1) as [|Hgt];
      [assumption|exfalso].
    apply Rnot_le_lt in Hgt. unfold asin in Hdeg.
    destruct (Rle_dec _ (-1)); [lra|]. destruct (Rle_dec 1 _); [|lra].
    pose proof PI_RGT_0. 
    assert (PI / 2 * 180 / PI = 90) by (field; lra). lra. }
  destruct (energy_roundtrip_small_angle _ Hn E HE Hq kd Hdeg)
    as (E' & H & HE').
  exists E'. split; [|exact HE'].
  rewrite xf_e2bragg_99_unfold.
  destruct (e2bragg_of_norm _ _) as [t|e]; [|discriminate H].
  cbn [bind] in H |- *. now rewrite xf_bragg2e_99_unfold.
Qed.

Lemma xf_bragg2e_after_xf_e2bragg_small_angle_witness :
  exists E' : R,
    (t <- Macros99.xf_e2bragg (py 200000) 1 1 1 ;;
     Macros99.xf_bragg2e t 1 1 1 0)
    = Return (float64 (Fin E'))
    /\ 0 < E' < 200000.
Proof.
  assert (Hm : (1 <> 0 \/ 1 <> 0 \/ 1 <> 0)%Z) by (left; discriminate).
  destruct (sine_111_bounds 200000 ltac:(lra)) as [Hlo Hhi].
  assert (H1 : 0 < 12398.42 / (2 * 5.43102 * 200000))
    by (apply Rdiv_lt_0_compat; lra).
  assert (H2 : 2 * 12398.42 / (2 * 5.43102 * 200000) <= 0.0115)
    by (apply Rle_div_upper; lra).
  pose proof PI2_3_2 as Hpi3. pose proof PI_RGT_0 as Hpi.
  apply (xf_bragg2e_after_xf_e2bragg_small_angle Py 200000 1 1 1 Hm); [lra|].
  set (q := 12398.42 / Spec.d0 1 1 1 false / 200000) in *.
  pose proof (asin_small q ltac:(lra)) as Ha.
  assert (Hq99 : q / 0.99 <= 0.0117) by (apply Rle_div_upper; lra).
  apply Rle_div_upper; lra.
Defined.

(** X3.  For an energy of at least 100 eV inside the arcsine domain, the
    angle [xf_e2bragg] returns lies in (0, 90] degrees. *)
Theorem xf_e2bragg_angle_range (kd : kind) (E : R) (h k l : Z) :
  (h <> 0 \/ k <> 0 \/ l <> 0)%Z ->
  100 <= E ->
  12398.42 / Spec.d0 h k l false / E <= 1 ->
  exists t : R,
    Macros99.xf_e2bragg (mk_num kd (Fin E)) h k l = Return (float64 (Fin t))
    /\ 0 < t <= 90.
Proof.
  intros Hm HE Hq. rewrite d0_spec_99 in Hq.
  pose proof (miller_norm99_pos h k l Hm) as Hn.
  eexists. split.
  - rewrite xf_e2bragg_99_unfold. now apply e2bragg_value.
  - now apply e2bragg_angle_range.
Qed.

Lemma xf_e2bragg_angle_range_witness :
  exists t : R,
    Macros99.xf_e2bragg (py 12660) 1 1 1 = Return (float64 (Fin t))
    /\ 0 < t <= 90.
Proof.
  assert (Hm : (1 <> 0 \/ 1 <> 0 \/ 1 <> 0)%Z) by (left; discriminate).
  destruct (sine_111_bounds 12660 ltac:(lra)) as [_ Hhi].
  assert (H2 : 2 * 12398.42 / (2 * 5.43102 * 12660) <= 0.2)
    by (apply Rle_div_upper; lra).
  apply (xf_e2bragg_angle_range Py 12660 1 1 1 Hm); lra.
Defined.

(** X4.  A higher energy gives a strictly smaller Bragg angle: for
    100 <= E1 < E2 with E1 inside the arcsine domain, the angle returned
    for E2 is below the one returned for E1. *)
Theorem xf_e2bragg_decreasing (kd : kind) (E1 E2 : R) (h k l : Z) :
  (h <> 0 \/ k <> 0 \/ l <> 0)%Z ->
  100 <= E1 < E2 ->
  12398.42 / Spec.d0 h k l false / E1 <= 1 ->
  exists t1 t2 : R,
    Macros99.xf_e2bragg (mk_num kd (Fin E1)) h k l = Return (float64 (Fin t1))
    /\ Macros99.xf_e2bragg (mk_num kd (Fin E2)) h k l = Return (float64 (Fin t2))
    /\ t2 < t1.
Proof.
  intros Hm HE Hq. rewrite d0_spec_99 in Hq.
  pose proof (miller_norm99_pos h k l Hm) as Hn.
  pose proof (d0_pos _ Hn) as Hd. pose proof PI_RGT_0 as Hpi.
  set (d := 2 * 5.43102 / sqrt (IZR (Macros99.miller_norm h k l))) in *.
  assert (Hc : 0 < 12398.42 / d) by (apply Rdiv_lt_0_compat; lra).
  assert (Hq2 : 0 < 12398.42 / d / E2 < 12398.42 / d / E1).
  { split; [apply Rdiv_lt_0_compat; lra|].
    apply Rlt_div_upper; [lra|].
    replace (12398.42 / d / E1 * E2) with (12398.42 / d * (E2 / E1))
      by (field; lra).
    assert (1 < E2 / E1) by (apply Rlt_div_lower; lra). nra. }
  do 2 eexists. rewrite !xf_e2bragg_99_unfold.
  rewrite (e2bragg_value _ Hn E1) by (lra || exact Hq).
  rewrite (e2bragg_value _ Hn E2) by (fold d; lra).
  split; [reflexivity|]. split; [reflexivity|]. fold d.
  assert (Ha : asin (12398.42 / d / E2) < asin (12398.42 / d / E1))
    by (apply asin_lt; lra).
  apply Rlt_div_upper; [lra|].
  replace (asin (12398.42 / d / E1) * 180 / PI * PI)
    with (asin (12398.42 / d / E1) * 180) by (field; lra).
  lra.
Qed.

Lemma xf_e2bragg_decreasing_witness :
  exists t1 t2 : R,
    Macros99.xf_e2bragg (py 12660) 1 1 1 = Return (float64 (Fin t1))
    /\ Macros99.xf_e2bragg (py 13500) 1 1 1 = Return (float64 (Fin t2))
    /\ t2 < t1.
Proof.
  assert (Hm : (1 <> 0 \/ 1 <> 0 \/ 1 <> 0)%Z) by (left; discriminate).
  destruct (sine_111_bounds 12660 ltac:(lra)) as [_ Hhi].
  assert (H2 : 2 * 12398.42 / (2 * 5.43102 * 12660) <= 0.2)
    by (apply Rle_div_upper; lra).
  apply (xf_e2bragg_decreasing Py 12660 13500 1 1 1 Hm); lra.
Defined.

(** X5.  The cold-crystal flag: every non-zero [LN] acts as [LN = 1], and
    the energy it gives is the uncorrected one divided by [1 - 2.4e-4]. *)
Theorem xf_bragg2e_cold_crystal (kd : kind) (t : R) (h k l LN : Z) :
  (h <> 0 \/ k <> 0 \/ l <> 0)%Z ->
  sin (Spec.angle_rad t) <> 0 ->
  LN <> 0%Z ->
  exists E0 E1 : R,
    Macros99.xf_bragg2e (mk_num kd (Fin t)) h k l 0 = Return (float64 (Fin E0))
    /\ Macros99.xf_bragg2e (mk_num kd (Fin t)) h k l LN
       = Return (float64 (Fin E1))
    /\ Macros99.xf_bragg2e (mk_num kd (Fin t)) h k l LN
       = Macros99.xf_bragg2e (mk_num kd (Fin t)) h k l 1
    /\ E1 * (1 - 2.4e-4) = E0.
Proof.
  intros Hm Hs HLN. pose proof (miller_norm99_pos h k l Hm) as Hn.
  pose proof (sqrt_IZR_pos _ Hn) as Hq.
  do 2 eexists. rewrite !xf_bragg2e_99_unfold.
  rewrite !bragg2e_closed_form by assumption.
  split; [reflexivity|]. split; [reflexivity|].
  assert (HL : lattice_numerator LN = lattice_numerator 1).
  { unfold lattice_numerator. destruct (Z.eqb_spec LN 0); [contradiction|].
    reflexivity. }
  split; [now rewrite HL|].
  rewrite HL. unfold lattice_numerator. cbn [Z.eqb]. field. lra.
Qed.

Lemma xf_bragg2e_cold_crystal_witness :
  exists E0 E1 : R,
    Macros99.xf_bragg2e (py 10) 1 1 1 0 = Return (float64 (Fin E0))
    /\ Macros99.xf_bragg2e (py 10) 1 1 1 5 = Return (float64 (Fin E1))
    /\ E1 * (1 - 2.4e-4) = E0.
Proof.
  assert (Hm : (1 <> 0 \/ 1 <> 0 \/ 1 <> 0)%Z) by (left; discriminate).
  pose proof sin_10_degrees_pos as Hs.
  destruct (xf_bragg2e_cold_crystal Py 10 1 1 1 5 Hm ltac:(lra)
              ltac:(discriminate)) as (E0 & E1 & H0 & H1 & _ & HE).
  exists E0, E1. repeat split; assumption.
Defined.

(** X6.  In [99-macros_99.py] both conversions depend on the Miller
    indices through the sum of their squares only: the sign of an index
    and the order of the indices do not matter. *)
Theorem miller_indices_symmetry (t E : num) (h k l LN : Z) :
  Macros99.xf_bragg2e t (- h) k l LN = Macros99.xf_bragg2e t h k l LN
  /\ Macros99.xf_bragg2e t k h l LN = Macros99.xf_bragg2e t h k l LN
  /\ Macros99.xf_bragg2e t h l k LN = Macros99.xf_bragg2e t h k l LN
  /\ Macros99.xf_e2bragg E (- h) k l = Macros99.xf_e2bragg E h k l
  /\ Macros99.xf_e2bragg E k h l = Macros99.xf_e2bragg E h k l
  /\ Macros99.xf_e2bragg E h l k = Macros99.xf_e2bragg E h k l.
Proof.
  rewrite !xf_bragg2e_99_unfold, !xf_e2bragg_99_unfold.
  assert (H1 : Macros99.miller_norm (- h) k l = Macros99.miller_norm h k l)
    by (unfold Macros99.miller_norm; ring).
  assert (H2 : Macros99.miller_norm k h l = Macros99.miller_norm h k l)
    by (unfold Macros99.miller_norm; ring).
  assert (H3 : Macros99.miller_norm h l k = Macros99.miller_norm h k l)
    by (unfold Macros99.miller_norm; ring).
  rewrite H1, H2, H3. repeat split.
Qed.

(** X7.  In [99-macros.py] the exclusive-or radicand cancels two equal
    trailing indices: with [k = l] it is [h ^ 2] whatever [k] is, so the
    conversions return for (h, k, k) what they return for (h, 0, 0). *)
Theorem xor_radicand_ignores_equal_indices (t E : num) (h k LN : Z) :
  Macros.miller_norm h k k = Z.lxor h 2
  /\ Macros.xf_bragg2e t h k k LN = Macros.xf_bragg2e t h 0 0 LN
  /\ Macros.xf_e2bragg E h k k = Macros.xf_e2bragg E h 0 0.
Proof.
  assert (H : forall j, Macros.miller_norm h j j = Z.lxor h 2).
  { intros j. unfold Macros.miller_norm.
    now rewrite (Z.lxor_assoc h), Z.lxor_nilpotent, Z.lxor_0_r. }
  rewrite !xf_bragg2e_unfold, !xf_e2bragg_unfold, !H. repeat split.
Qed.

(** * Further properties of the detector geometry *)

Lemma recResolution2detZ_value (kr kl kD : kind) (rec lam d : R) :
  rec <> 0 ->
  -1 <= lam / (2 * rec) <= 1 ->
  cos (2 * asin (lam / (2 * rec))) <> 0 ->
  tan (2 * asin (lam / (2 * rec))) <> 0 ->
  xf_recResolution2detZ (mk_num kr (Fin rec)) (mk_num kl (Fin lam))
                        (mk_num kD (Fin d))
  = Return (float64 (Fin (0.5 * d / tan (2 * asin (lam / (2 * rec)))))).
Proof.
  intros Hr Hq Hc Ht. unfold xf_recResolution2detZ, py.
  rewrite mul_fin, truediv_fin by lra. cbn [bind].
  unfold np.arcsin, np.tan, float64. cbn [nval IEEE.arcsin].
  destruct (Rlt_dec (lam / (2 * rec)) (-1)); [lra|].
  destruct (Rlt_dec 1 (lam / (2 * rec))); [lra|].
  cbn [nval PyNum.mul IEEE.mul IEEE.tan nkind join].
  destruct (Req_dec_T (cos (2 * asin (lam / (2 * rec)))) 0); [contradiction|].
  rewrite mul_fin, truediv_fin by exact Ht.
  now rewrite join_Np_r.
Qed.

Lemma resolution_denominator_decreasing (D z1 z2 : R) :
  0 < D -> 0 < z1 < z2 ->
  0 < sin (0.5 * atan (0.5 * D / z2)) < sin (0.5 * atan (0.5 * D / z1)).
Proof.
  intros HD Hz. pose proof PI_RGT_0 as Hpi.
  assert (Hr2 : 0 < 0.5 * D / z2) by (apply Rdiv_lt_0_compat; lra).
  assert (Hr : 0.5 * D / z2 < 0.5 * D / z1).
  { apply Rlt_div_upper; [lra|].
    replace (0.5 * D / z1 * z2) with (0.5 * D * (z2 / z1)) by (field; lra).
    assert (1 < z2 / z1) by (apply Rlt_div_lower; lra). nra. }
  pose proof (atan_pos _ Hr2) as Ha2.
  assert (Hr1 : 0 < 0.5 * D / z1) by lra.
  pose proof (atan_pos _ Hr1) as Ha1.
  pose proof (atan_increasing _ _ Hr) as Hinc.
  split; [now apply sin_half_atan_pos|].
  apply sin_increasing_1; lra.
Qed.

(** X8.  The recordable resolution grows with the detector distance: for
    positive wavelength and diameter and distances 0 < z1 < z2,
    [xf_detZ2recResolution] returns a strictly larger value at z2. *)
Theorem xf_detZ2recResolution_increasing (kz kl kD : kind)
    (z1 z2 xLambda D : R) :
  0 < z1 < z2 -> 0 < xLambda -> 0 < D ->
  exists r1 r2 : R,
    xf_detZ2recResolution (mk_num kz (Fin z1)) (mk_num kl (Fin xLambda))
                          (mk_num kD (Fin D))
    = Return (float64 (Fin r1))
    /\ xf_detZ2recResolution (mk_num kz (Fin z2)) (mk_num kl (Fin xLambda))
                             (mk_num kD (Fin D))
       = Return (float64 (Fin r2))
    /\ 0 < r1 < r2.
Proof.
  intros Hz Hl HD.
  destruct (resolution_denominator_decreasing D z1 z2 HD Hz) as [Hs2 Hs].
  do 2 eexists.
  rewrite !detZ2recResolution_value by lra.
  split; [reflexivity|]. split; [reflexivity|].
  set (s1 := sin (0.5 * atan (0.5 * D / z1))) in *.
  set (s2 := sin (0.5 * atan (0.5 * D / z2))) in *.
  split; [apply Rdiv_lt_0_compat; lra|].
  apply Rlt_div_upper; [lra|].
  replace (xLambda / (2 * s2) * (2 * s1)) with (xLambda * (s1 / s2))
    by (field; lra).
  assert (1 < s1 / s2) by (apply Rlt_div_lower; lra). nra.
Qed.

Lemma xf_detZ2recResolution_increasing_witness :
  exists r1 r2 : R,
    xf_detZ2recResolution (py 150) (py 0.979) D_default
    = Return (float64 (Fin r1))
    /\ xf_detZ2recResolution (py 300) (py 0.979) D_default
       = Return (float64 (Fin r2))
    /\ 0 < r1 < r2.
Proof.
  apply (xf_detZ2recResolution_increasing Py Py Py 150 300 0.979 327.8); lra.
Defined.

(** X9.  Resolution to distance and back: for positive arguments and a
    resolution whose diffraction angle [2*asin(xLambda/(2*recResolution))]
    stays below 90 degrees, [xf_recResolution2detZ] followed by
    [xf_detZ2recResolution] returns the resolution. *)
Theorem xf_detZ2recResolution_after_xf_recResolution2detZ (kr kl kD : kind)
    (recResolution xLambda D : R) :
  0 < recResolution -> 0 < xLambda -> 0 < D ->
  xLambda / (2 * recResolution) < sin (PI / 4) ->
  (detZ <- xf_recResolution2detZ (mk_num kr (Fin recResolution))
             (mk_num kl (Fin xLambda)) (mk_num kD (Fin D)) ;;
   xf_detZ2recResolution detZ (mk_num kl (Fin xLambda)) (mk_num kD (Fin D)))
  = Return (float64 (Fin recResolution)).
Proof.
  intros Hr Hl HD Hq. pose proof PI_RGT_0 as Hpi.
  set (q := xLambda / (2 * recResolution)) in *.
  assert (Hq0 : 0 < q) by (apply Rdiv_lt_0_compat; lra).
  pose proof (SIN_bound (PI / 4)) as Hb.
  destruct (asin_pos q) as [Ha0 _]; [lra|].
  assert (Ha : asin q < PI / 4).
  { pose proof (asin_bound q).
    apply sin_increasing_0; try lra. rewrite sin_asin; lra. }
  assert (Hcos : 0 < cos (2 * asin q)) by (apply cos_gt_0; lra).
  assert (Htan : 0 < tan (2 * asin q)) by (apply tan_gt_0; lra).
  rewrite recResolution2detZ_value; fold q; try lra.
  cbn [bind]. unfold float64.
  assert (Hz : 0 < 0.5 * D / tan (2 * asin q))
    by (apply Rdiv_lt_0_compat; lra).
  rewrite detZ2recResolution_value by assumption.
  apply Return_Fin_eq.
  replace (0.5 * D / (0.5 * D / tan (2 * asin q))) with (tan (2 * asin q))
    by (field; lra).
  rewrite atan_tan by lra.
  replace (0.5 * (2 * asin q)) with (asin q) by lra.
  rewrite sin_asin by lra. unfold q. field. lra.
Qed.

Lemma xf_detZ2recResolution_after_xf_recResolution2detZ_witness :
  (detZ <- xf_recResolution2detZ (py 2) (py 1) D_default ;;
   xf_detZ2recResolution detZ (py 1) D_default)
  = Return (float64 (Fin 2)).
Proof.
  apply (xf_detZ2recResolution_after_xf_recResolution2detZ
           Py Py Py 2 1 327.8); try lra.
  rewrite sin_PI4.
  assert (Hs : sqrt 2 < 2).
  { rewrite <- (sqrt_square 2) at 2 by lra. apply sqrt_lt_1_alt. lra. }
  assert (0 < sqrt 2) by (apply sqrt_lt_R0; lra).
  apply Rlt_div_lower; lra.
Defined.

Lemma detZ2recResolution_value_nonzero (kz kl kD : kind) (detZ lam D : R) :
  detZ <> 0 ->
  sin (0.5 * atan (0.5 * D / detZ)) <> 0 ->
  xf_detZ2recResolution (mk_num kz (Fin detZ)) (mk_num kl (Fin lam))
                        (mk_num kD (Fin D))
  = Return (float64 (Fin (lam / (2 * sin (0.5 * atan (0.5 * D / detZ)))))).
Proof.
  intros Hz Hs. unfold xf_detZ2recResolution, py.
  rewrite mul_fin, truediv_fin by exact Hz. cbn [bind].
  unfold np.arctan, np.sin, float64.
  cbn [nval IEEE.arctan PyNum.mul IEEE.mul IEEE.sin nkind join].
  rewrite ?mul_fin, truediv_fin by lra. cbn [join]. now rewrite join_Np_r.
Qed.

(** X10.  A zero distance.  When the distance and the diameter are builtin
    numbers, [xf_detZ2recResolution] raises [ZeroDivisionError].  When the
    zero is a [numpy.float64] and the diameter is positive, nothing is
    raised: the ratio is an infinity, the arctangent has magnitude pi/2,
    and the function returns a finite number of magnitude
    [|xLambda| / (2 * sin(pi/4))].  The sign of the result follows the
    sign of the zero and is left open. *)
Theorem xf_detZ2recResolution_zero_distance (kl kD : kind) (xLambda D : R) :
  xf_detZ2recResolution (py 0) (mk_num kl (Fin xLambda)) (py D)
  = Raise ZeroDivisionError
  /\ (0 < D ->
      exists r : R,
        xf_detZ2recResolution (float64 (Fin 0)) (mk_num kl (Fin xLambda))
                              (mk_num kD (Fin D))
        = Return (float64 (Fin r))
        /\ Rabs r = Rabs xLambda / (2 * sin (PI / 4))).
Proof.
  split.
  - unfold xf_detZ2recResolution, PyNum.truediv, py. cbn.
    destruct (Req_dec_T 0 0); [reflexivity | lra].
  - intros HD.
    assert (Hs : 0 < sin (PI / 4)).
    { pose proof PI_RGT_0. apply sin_gt_0; lra. }
    exists (xLambda / (2 * sin (PI / 4))). split.
    + unfold xf_detZ2recResolution, py, float64.
      rewrite mul_fin, truediv_numpy_total by (cbn; now rewrite join_Np_r).
      cbn [bind nval IEEE.div].
      destruct (Req_dec_T 0 0); [|lra].
      destruct (Req_dec_T (0.5 * D) 0); [lra|].
      unfold IEEE.nonneg. destruct (Rle_dec 0 (0.5 * D)); [|lra].
      cbn [IEEE.inf_of_sign]. unfold np.arctan, np.sin, float64.
      cbn [nval IEEE.arctan PyNum.mul IEEE.mul IEEE.sin nkind join].
      replace (0.5 * (PI / 2)) with (PI / 4) by lra.
      rewrite ?mul_fin, truediv_fin by lra. cbn [join]. now rewrite join_Np_r.
    + set (c := 2 * sin (PI / 4)). assert (Hc : 0 < c) by (unfold c; lra).
      unfold Rdiv. rewrite Rabs_mult, Rabs_inv, (Rabs_pos_eq c) by lra.
      reflexivity.
Qed.

Lemma xf_detZ2recResolution_zero_distance_witness :
  exists r : R,
    xf_detZ2recResolution (float64 (Fin 0)) (py 1) D_default
    = Return (float64 (Fin r))
    /\ Rabs r = Rabs 1 / (2 * sin (PI / 4)).
Proof.
  apply (proj2 (xf_detZ2recResolution_zero_distance Py Py 1 327.8)). lra.
Defined.

(** X11.  The sign of the distance is not checked: for positive
    wavelength and diameter, a negative distance returns the negative of
    the resolution of the positive one. *)
Theorem xf_detZ2recResolution_negative_distance (kz kl kD : kind)
    (detZ xLambda D : R) :
  0 < detZ -> 0 < xLambda -> 0 < D ->
  exists r : R,
    0 < r
    /\ xf_detZ2recResolution (mk_num kz (Fin detZ)) (mk_num kl (Fin xLambda))
                             (mk_num kD (Fin D))
       = Return (float64 (Fin r))
    /\ xf_detZ2recResolution (mk_num kz (Fin (- detZ)))
                             (mk_num kl (Fin xLambda)) (mk_num kD (Fin D))
       = Return (float64 (Fin (- r))).
Proof.
  intros Hz Hl HD.
  assert (Hr : 0 < 0.5 * D / detZ) by (apply Rdiv_lt_0_compat; lra).
  pose proof (sin_half_atan_pos _ Hr) as Hs.
  exists (xLambda / (2 * sin (0.5 * atan (0.5 * D / detZ)))).
  split; [apply Rdiv_lt_0_compat; lra|].
  split; [apply detZ2recResolution_value; assumption|].
  assert (Hneg : sin (0.5 * atan (0.5 * D / - detZ))
                 = - sin (0.5 * atan (0.5 * D / detZ))).
  { replace (0.5 * D / - detZ) with (- (0.5 * D / detZ)) by (field; lra).
    rewrite atan_opp.
    replace (0.5 * - atan (0.5 * D / detZ))
      with (- (0.5 * atan (0.5 * D / detZ))) by lra.
    apply sin_neg. }
  rewrite detZ2recResolution_value_nonzero by (rewrite ?Hneg; lra).
  apply Return_Fin_eq. rewrite Hneg. field. lra.
Qed.

Lemma xf_detZ2recResolution_negative_distance_witness :
  exists r : R,
    0 < r
    /\ xf_detZ2recResolution (py 200) (py 1) D_default
       = Return (float64 (Fin r))
    /\ xf_detZ2recResolution (py (- 200)) (py 1) D_default
       = Return (float64 (Fin (- r))).
Proof.
  apply (xf_detZ2recResolution_negative_distance Py Py Py 200 1 327.8); lra.
Defined.

(** X12.  The domain of [xf_recResolution2detZ].  A zero resolution given
    as a builtin number, with a builtin wavelength, raises
    [ZeroDivisionError]; a non-zero resolution finer than half the
    wavelength puts the arcsine outside [-1, 1], and the function raises
    nothing and returns NaN. *)
Theorem xf_recResolution2detZ_domain (kr kl kD : kind)
    (recResolution xLambda D : R) :
  xf_recResolution2detZ (py 0) (py xLambda) (mk_num kD (Fin D))
  = Raise ZeroDivisionError
  /\ (recResolution <> 0 ->
      1 < Rabs (xLambda / (2 * recResolution)) ->
      xf_recResolution2detZ (mk_num kr (Fin recResolution))
                            (mk_num kl (Fin xLambda)) (mk_num kD (Fin D))
      = Return (float64 NaN)).
Proof.
  split.
  - unfold xf_recResolution2detZ, PyNum.truediv, py. cbn.
    rewrite Rmult_0_r. destruct (Req_dec_T 0 0); [reflexivity | lra].
  - intros Hr Hq. unfold xf_recResolution2detZ, py.
    rewrite mul_fin, truediv_fin by lra. cbn [bind].
    unfold np.arcsin, np.tan, float64. cbn [nval IEEE.arcsin].
    assert (Hcases : xLambda / (2 * recResolution) < -1
                     \/ 1 < xLambda / (2 * recResolution)).
    { revert Hq. unfold Rabs. destruct (Rcase_abs _); lra. }
    assert (Hnan : (if Rlt_dec (xLambda / (2 * recResolution)) (-1) then NaN
                    else if Rlt_dec 1 (xLambda / (2 * recResolution)) then NaN
                         else Fin (asin (xLambda / (2 * recResolution))))
                   = NaN).
    { destruct (Rlt_dec _ (-1)); [reflexivity|].
      destruct (Rlt_dec 1 _); [reflexivity | lra]. }
    rewrite Hnan. cbn [nval PyNum.mul IEEE.mul IEEE.tan nkind join].
    rewrite truediv_numpy_total by (cbn; now rewrite join_Np_r).
    reflexivity.
Qed.

Lemma xf_recResolution2detZ_domain_witness :
  xf_recResolution2detZ (py 0.4) (py 1) D_default = Return (float64 NaN).
Proof.
  apply (proj2 (xf_recResolution2detZ_domain Py Py Py 0.4 1 327.8)); [lra|].
  replace (1 / (2 * 0.4)) with 1.25 by lra. rewrite Rabs_pos_eq; lra.
Defined.

(** * Further properties of the electrode stepping *)

Lemma diff_too_large_false (diffs : list R) :
  (forall d, In d diffs -> Rabs d <= 500) -> diff_too_large diffs = false.
Proof.
  intros H. destruct (diff_too_large diffs) eqn:E; [|reflexivity].
  apply diff_too_large_spec in E. destruct E as (d & Hd & Hgt).
  specialize (H d Hd). lra.
Qed.

(** X13.  [set_influence] raises on no input: every call returns, the
    list updates stay inside the sixteen demands and [prefix] is bound
    whenever it is used. *)
Theorem set_influence_never_raises (Hw : Type) (pv_get : Hw -> string -> R)
    (pv_put : Hw -> string -> Z -> bool -> Hw)
    (electrode : Z) (bimorph : string) (bank : Z) (w : world Hw) :
  snd (set_influence pv_get pv_put electrode bimorph bank w) = Return tt.
Proof.
  destruct (in_dec string_dec bimorph allowed_bimorphs) as [Hb|Hb].
  2:{ now rewrite set_influence_bad_bimorph. }
  destruct (Z_lt_dec electrode 0) as [|He0].
  { rewrite set_influence_bad_electrode by (assumption || lia). reflexivity. }
  destruct (Z_lt_dec 31 electrode) as [|He1].
  { rewrite set_influence_bad_electrode by (assumption || lia). reflexivity. }
  destruct (prefix_of_allowed _ Hb) as [prefix Hp].
  assert (He : (0 <= electrode <= 31)%Z) by lia.
  destruct (recomputed_demands_exist Hw pv_get pv_put electrode bank w prefix
              He) as (nd & Hnd & _).
  rewrite (set_influence_run Hw pv_get pv_put electrode bimorph bank w prefix
             Hp He nd Hnd).
  destruct (diff_too_large (np_diff nd)); [reflexivity|].
  destruct (_ >? 0)%Z; reflexivity.
Qed.

(** X14.  Below the bound, for an electrode other than 0 and 16: after
    the bank selection and the readings, [set_influence] announces and
    writes the decrement of electrode [electrode - 1], then announces and
    writes the increment of [electrode], and returns. *)
Theorem set_influence_decrement_then_increment (Hw : Type)
    (pv_get : Hw -> string -> R) (pv_put : Hw -> string -> Z -> bool -> Hw)
    (electrode : Z) (bimorph : string) (bank : Z) (w : world Hw)
    (prefix : string) (new_demands : list R) :
  prefix_of bimorph = Return prefix ->
  (0 < electrode <= 31)%Z -> electrode <> 16%Z ->
  let bank_pv := (prefix ++ "BANK_NO_32")%string in
  let incr_pv := (prefix ++ "INCR_U_CMD.A")%string in
  let decr_pv := (prefix ++ "DECR_U_CMD.A")%string in
  let step_pv := (prefix ++ "U_STEP_MON.A")%string in
  let demand_pvs :=
    map (fun i => (prefix ++ "U" ++ format_int i ++ "_CURRENT_MON")%string)
        (range ((bank - 1) * 16) (bank * 16)) in
  let hw1 := pv_put (hw w) bank_pv (bank - 1)%Z true in
  let step := pv_get hw1 step_pv in
  let demands := map (pv_get hw1) demand_pvs in
  let i := if (electrode <? 16)%Z then electrode else (electrode - 16)%Z in
  step_demands demands i step = Return new_demands ->
  (forall d, In d (np_diff new_demands) -> Rabs d <= 500) ->
  set_influence pv_get pv_put electrode bimorph bank w
  = (mk_world
       (pv_put (pv_put hw1 decr_pv (electrode - 1)%Z false)
               incr_pv electrode false)
       (trace w
        ++ (Put bank_pv (bank - 1)%Z true :: Sleep 0.5 :: Get step_pv
            :: map Get demand_pvs)
        ++ [Print [PStr "decrementing electrode"; PInt (electrode - 1);
                   PStr "by"; PNum step];
            Put decr_pv (electrode - 1)%Z false;
            Print [PStr "incrementing electrode"; PInt electrode;
                   PStr "by"; PNum step];
            Put incr_pv electrode false]),
     Return tt).
Proof.
  intros Hp He H16 bank_pv incr_pv decr_pv step_pv demand_pvs hw1 step demands
         i Hnd Hd.
  pose proof (set_influence_run Hw pv_get pv_put electrode bimorph bank w
                prefix Hp ltac:(lia) new_demands Hnd) as Hrun.
  cbv zeta in Hrun. rewrite (diff_too_large_false _ Hd) in Hrun.
  assert (Hi : (i >? 0)%Z = true).
  { apply Z.gtb_lt. unfold i. destruct (Z.ltb_spec electrode 16); lia. }
  fold i in Hrun. rewrite Hi in Hrun. rewrite Hrun.
  unfold io_bind, print, emit, put. cbn [hw trace].
  fold bank_pv step_pv demand_pvs hw1 decr_pv incr_pv.
  now rewrite <- !app_assoc.
Qed.

(** X15.  Below the bound, for electrode 0 or 16 (the first of a bank):
    no decrement is issued; after the bank selection and the readings the
    one command is the increment of [electrode]. *)
Theorem set_influence_first_electrode (Hw : Type)
    (pv_get : Hw -> string -> R) (pv_put : Hw -> string -> Z -> bool -> Hw)
    (electrode : Z) (bimorph : string) (bank : Z) (w : world Hw)
    (prefix : string) (new_demands : list R) :
  prefix_of bimorph = Return prefix ->
  (electrode = 0 \/ electrode = 16)%Z ->
  let bank_pv := (prefix ++ "BANK_NO_32")%string in
  let incr_pv := (prefix ++ "INCR_U_CMD.A")%string in
  let step_pv := (prefix ++ "U_STEP_MON.A")%string in
  let demand_pvs :=
    map (fun i => (prefix ++ "U" ++ format_int i ++ "_CURRENT_MON")%string)
        (range ((bank - 1) * 16) (bank * 16)) in
  let hw1 := pv_put (hw w) bank_pv (bank - 1)%Z true in
  let step := pv_get hw1 step_pv in
  let demands := map (pv_get hw1) demand_pvs in
  step_demands demands 0 step = Return new_demands ->
  (forall d, In d (np_diff new_demands) -> Rabs d <= 500) ->
  set_influence pv_get pv_put electrode bimorph bank w
  = (mk_world
       (pv_put hw1 incr_pv electrode false)
       (trace w
        ++ (Put bank_pv (bank - 1)%Z true :: Sleep 0.5 :: Get step_pv
            :: map Get demand_pvs)
        ++ [Print [PStr "incrementing electrode"; PInt electrode;
                   PStr "by"; PNum step];
            Put incr_pv electrode false]),
     Return tt).
Proof.
  intros Hp He bank_pv incr_pv step_pv demand_pvs hw1 step demands Hnd Hd.
  assert (Hi : (if (electrode <? 16)%Z then electrode else (electrode - 16)%Z)
               = 0%Z) by (destruct He as [->| ->]; reflexivity).
  pose proof (set_influence_run Hw pv_get pv_put electrode bimorph bank w
                prefix Hp ltac:(lia) new_demands) as Hrun.
  cbv zeta in Hrun. rewrite Hi in Hrun. specialize (Hrun Hnd).
  rewrite (diff_too_large_false _ Hd) in Hrun. cbn [Z.gtb Z.compare] in Hrun.
  rewrite Hrun.
  unfold io_bind, print, emit, put, ret. cbn [hw trace].
  fold bank_pv step_pv demand_pvs hw1 incr_pv.
  now rewrite <- !app_assoc.
Qed.

Ltac bound_diffs :=
  intros d Hd; cbn in Hd;
  repeat (destruct Hd as [<-|Hd]; [unfold Rabs; destruct (Rcase_abs _); lra|]);
  contradiction.

Lemma set_influence_decrement_then_increment_witness :
  exists w' : world unit,
    set_influence Bench100.pv_get Bench.pv_put 5 "kb" 1 Bench.start
    = (w', Return tt)
    /\ filter is_write (trace w')
       = [Put "XF:17IDC-OP:FMX{Mir:KB-PS}:BANK_NO_32" 0 true;
          Put "XF:17IDC-OP:FMX{Mir:KB-PS}:DECR_U_CMD.A" 4 false;
          Put "XF:17IDC-OP:FMX{Mir:KB-PS}:INCR_U_CMD.A" 5 false].
Proof.
  eexists. split.
  - apply (set_influence_decrement_then_increment unit Bench100.pv_get
             Bench.pv_put 5 "kb" 1 Bench.start "XF:17IDC-OP:FMX{Mir:KB-PS}:"
             [0; 0; 0; 0; 0 - 100; 0 + 100; 0; 0; 0; 0; 0; 0; 0; 0; 0; 0]
             eq_refl ltac:(lia) ltac:(discriminate) eq_refl).
    bound_diffs.
  - reflexivity.
Defined.

Lemma set_influence_first_electrode_witness :
  exists w' : world unit,
    set_influence Bench.pv_get Bench.pv_put 16 "kb" 2 Bench.start
    = (w', Return tt)
    /\ filter is_write (trace w')
       = [Put "XF:17IDC-OP:FMX{Mir:KB-PS}:BANK_NO_32" 1 true;
          Put "XF:17IDC-OP:FMX{Mir:KB-PS}:INCR_U_CMD.A" 16 false].
Proof.
  eexists. split.
  - apply (set_influence_first_electrode unit Bench.pv_get
             Bench.pv_put 16 "kb" 2 Bench.start "XF:17IDC-OP:FMX{Mir:KB-PS}:"
             [0 + 300; 0; 0; 0; 0; 0; 0; 0; 0; 0; 0; 0; 0; 0; 0; 0]
             eq_refl ltac:(right; reflexivity) eq_refl).
    bound_diffs.
  - reflexivity.
Defined.

Lemma nth_update_nth_eq (l : list R) (n : nat) (f : R -> R) :
  (n < List.length l)%nat -> nth n (update_nth l n f) 0 = f (nth n l 0).
Proof.
  revert n. induction l as [|x l IH]; intros [|n] Hn; cbn in *;
    try lia; [reflexivity | apply IH; lia].
Qed.

Lemma nth_update_nth_neq (l : list R) (n m : nat) (f : R -> R) :
  n <> m -> nth m (update_nth l n f) 0 = nth m l 0.
Proof.
  revert n m. induction l as [|x l IH]; intros [|n] [|m] Hnm; cbn;
    try reflexivity; try congruence.
  apply IH. congruence.
Qed.

Lemma np_diff_In (l : list R) (n : nat) :
  (S n < List.length l)%nat -> In (nth (S n) l 0 - nth n l 0) (np_diff l).
Proof.
  revert n. induction l as [|x l IH]; intros n Hn; [cbn in Hn; lia|].
  destruct l as [|y l]; [cbn in Hn; lia|].
  destruct n as [|n].
  - left. reflexivity.
  - right. apply (IH n). cbn in Hn |- *. lia.
Qed.

(** The two entries that [step_demands] changes. *)
Lemma step_demands_pair (demands new_demands : list R) (i : Z) (step : R) :
  (0 < i < Z.of_nat (List.length demands))%Z ->
  step_demands demands i step = Return new_demands ->
  List.length new_demands = List.length demands
  /\ nth (Z.to_nat i) new_demands 0 = nth (Z.to_nat i) demands 0 + step
  /\ nth (Z.to_nat (i - 1)) new_demands 0
     = nth (Z.to_nat (i - 1)) demands 0 - step.
Proof.
  intros Hi. unfold step_demands, isub, iadd, py_index.
  replace (i >? 0)%Z with true by (symmetry; apply Z.gtb_lt; lia).
  replace ((0 <=? i - 1) && (i - 1 <? Z.of_nat (List.length demands)))%Z
    with true by (symmetry; apply andb_true_iff; split; lia).
  cbn [bind]. rewrite length_update_nth.
  replace ((0 <=? i) && (i <? Z.of_nat (List.length demands)))%Z
    with true by (symmetry; apply andb_true_iff; split; lia).
  cbn [bind]. intros H. injection H as <-.
  rewrite !length_update_nth. split; [reflexivity|]. split.
  - rewrite nth_update_nth_eq by (rewrite length_update_nth; lia).
    rewrite nth_update_nth_neq by lia. reflexivity.
  - rewrite nth_update_nth_neq by lia.
    rewrite nth_update_nth_eq by lia. reflexivity.
Qed.

(** X16.  Stepping electrode [i > 0] moves the difference between the
    demands of [i] and [i - 1] by twice the step: when
    [|demands[i] - demands[i-1] + 2*step| > 500], [set_influence] prints
    the message and returns, the bank selection being its one write. *)
Theorem set_influence_double_step_abort (Hw : Type)
    (pv_get : Hw -> string -> R) (pv_put : Hw -> string -> Z -> bool -> Hw)
    (electrode : Z) (bimorph : string) (bank : Z) (w : world Hw)
    (prefix : string) :
  prefix_of bimorph = Return prefix ->
  (0 < electrode <= 31)%Z -> electrode <> 16%Z ->
  let bank_pv := (prefix ++ "BANK_NO_32")%string in
  let step_pv := (prefix ++ "U_STEP_MON.A")%string in
  let demand_pvs :=
    map (fun i => (prefix ++ "U" ++ format_int i ++ "_CURRENT_MON")%string)
        (range ((bank - 1) * 16) (bank * 16)) in
  let hw1 := pv_put (hw w) bank_pv (bank - 1)%Z true in
  let step := pv_get hw1 step_pv in
  let demands := map (pv_get hw1) demand_pvs in
  let i := if (electrode <? 16)%Z then electrode else (electrode - 16)%Z in
  500 < Rabs (nth (Z.to_nat i) demands 0 - nth (Z.to_nat (i - 1)) demands 0
              + 2 * step) ->
  set_influence pv_get pv_put electrode bimorph bank w
  = (mk_world hw1
       (trace w
        ++ (Put bank_pv (bank - 1)%Z true :: Sleep 0.5 :: Get step_pv
            :: map Get demand_pvs)
        ++ [Print [PStr "got difference between values larger than 500"]]),
     Return tt).
Proof.
  intros Hp He H16 bank_pv step_pv demand_pvs hw1 step demands i Hgt.
  assert (He' : (0 <= electrode <= 31)%Z) by lia.
  destruct (recomputed_demands_exist Hw pv_get pv_put electrode bank w prefix
              He') as (nd & Hnd & Hlen).
  pose proof (demands_length Hw pv_get pv_put bank w prefix) as Hl.
  fold bank_pv step_pv demand_pvs hw1 in Hnd, Hl. fold step in Hnd.
  fold demands in Hnd, Hl. fold i in Hnd.
  assert (Hi : (0 < i < 16)%Z).
  { unfold i. destruct (Z.ltb_spec electrode 16); lia. }
  destruct (step_demands_pair demands nd i step) as (_ & Hi1 & Hi0);
    [rewrite Hl; cbn; lia | exact Hnd |].
  assert (Hin : In (nth (Z.to_nat i) nd 0 - nth (Z.to_nat (i - 1)) nd 0)
                   (np_diff nd)).
  { replace (Z.to_nat i) with (S (Z.to_nat (i - 1))) by lia.
    apply np_diff_In. lia. }
  assert (Hd : diff_too_large (np_diff nd) = true).
  { apply diff_too_large_spec. eexists. split; [exact Hin|].
    rewrite Hi1, Hi0.
    replace (nth (Z.to_nat i) demands 0 + step
             - (nth (Z.to_nat (i - 1)) demands 0 - step))
      with (nth (Z.to_nat i) demands 0 - nth (Z.to_nat (i - 1)) demands 0
            + 2 * step) by lra.
    exact Hgt. }
  rewrite (set_influence_run Hw pv_get pv_put electrode bimorph bank w prefix
             Hp He' nd Hnd).
  rewrite Hd. unfold print, emit. cbn [hw trace].
  fold bank_pv step_pv demand_pvs hw1. now rewrite <- app_assoc.
Qed.

Lemma set_influence_double_step_abort_witness :
  exists w' : world unit,
    set_influence Bench.pv_get Bench.pv_put 21 "kb" 2 Bench.start
    = (w', Return tt)
    /\ filter is_write (trace w')
       = [Put "XF:17IDC-OP:FMX{Mir:KB-PS}:BANK_NO_32" 1 true].
Proof.
  eexists. split.
  - apply (set_influence_double_step_abort unit Bench.pv_get Bench.pv_put
             21 "kb" 2 Bench.start "XF:17IDC-OP:FMX{Mir:KB-PS}:"
             eq_refl ltac:(lia) ltac:(discriminate)).
    change (500 < Rabs (0 - 0 + 2 * 300)). rewrite Rabs_pos_eq; lra.
  - reflexivity.
Defined.

(** * Plans and macros over ophyd devices *)

Section Polling.

Import Ophyd.

Context {Hw : Type} `{Hardware Hw}.

Variables (sg : signal) (again : R -> bool) (dt : R).

(** The reading that the [n]-th test of the loop sees. *)
Let seen (n : nat) (h : Hw) : R := reading (after_sleeps n dt h) sg.

(** A loop that leaves at its [n]-th test has slept [n] times. *)
Lemma poll_leaves (n fuel : nat) (s : session Hw) :
  (n < fuel)%nat ->
  (forall m, (m < n)%nat -> again (seen m (rig s)) = true) ->
  again (seen n (rig s)) = false ->
  poll fuel sg again dt s
  = (mk_session (after_sleeps n dt (rig s)) (log s ++ polls n sg dt), Done tt).
Proof.
  revert fuel s. induction n as [|n IH]; intros [|fuel] [h l] Hf Hbefore Hn;
    try lia; cbn [poll]; unfold and_then, get; cbn [rig log] in *.
  - unfold seen in Hn. cbn [after_sleeps] in Hn. rewrite Hn. reflexivity.
  - specialize (Hbefore 0%nat ltac:(lia)) as H0.
    unfold seen in H0. cbn [after_sleeps] in H0. rewrite H0.
    unfold sleep at 1. cbn [rig log].
    rewrite IH; cbn [rig log]; try lia.
    + cbn [after_sleeps polls]. now rewrite <- !app_assoc.
    + intros m Hm. apply (Hbefore (S m)). lia.
    + exact Hn.
Qed.

(** A loop whose test never fails is still running when the fuel is
    spent, whatever the fuel. *)
Lemma poll_runs_on (fuel : nat) (s : session Hw) :
  (forall m, again (seen m (rig s)) = true) ->
  snd (poll fuel sg again dt s) = Running.
Proof.
  revert s. induction fuel as [|fuel IH]; intros [h l] Hall; [reflexivity|].
  cbn [poll]. unfold and_then, get. cbn [rig log] in *.
  specialize (Hall 0%nat) as H0. unfold seen in H0. cbn [after_sleeps] in H0.
  rewrite H0. unfold sleep at 1. cbn [rig log].
  apply IH. cbn [rig]. intros m. apply (Hall (S m)).
Qed.

(** Polling commands nothing. *)
Lemma poll_commands (fuel : nat) (s : session Hw) :
  filter is_command (log (fst (poll fuel sg again dt s)))
  = filter is_command (log s).
Proof.
  revert s. induction fuel as [|fuel IH]; intros [h l]; [reflexivity|].
  cbn [poll]. unfold and_then, get. cbn [rig log].
  destruct (again (reading h sg)).
  - unfold sleep at 1. cbn [rig log]. rewrite IH. cbn [log].
    rewrite !filter_app. cbn. now rewrite !app_nil_r.
  - cbn. rewrite filter_app. cbn. now rewrite app_nil_r.
Qed.

Lemma poll_done_unit (fuel : nat) (s : session Hw) :
  snd (poll fuel sg again dt s) = Done tt
  \/ snd (poll fuel sg again dt s) = Running.
Proof.
  destruct (snd (poll fuel sg again dt s)) as [[]|]; auto.
Qed.

(** A loop with no exit sleeps as long as it has fuel. *)
Lemma sleep_on_runs (fuel : nat) (s : session Hw) :
  sleep_on fuel dt s
  = (mk_session (after_sleeps fuel dt (rig s)) (log s ++ repeat (Wait dt) fuel),
     Running).
Proof.
  revert s. induction fuel as [|fuel IH]; intros [h l].
  - cbn. now rewrite app_nil_r.
  - cbn [sleep_on]. unfold and_then, sleep at 1. cbn [rig log].
    rewrite IH. cbn [rig log after_sleeps repeat]. now rewrite <- app_assoc.
Qed.

End Polling.

Section Beamsize.

Import Ophyd.

Context {Hw : Type} `{Hardware Hw}.

Lemma filter_move_moves (lenses attrs : list string) :
  filter is_move (lens_moves lenses attrs) = lens_moves lenses attrs.
Proof.
  unfold lens_moves. induction (combine lenses attrs) as [|p l IH]; cbn;
    [reflexivity | now rewrite IH].
Qed.

Lemma filter_move_warned (energy : R) : filter is_move (warned energy) = [].
Proof. unfold warned. destruct (Rlt_dec _ _); reflexivity. Qed.

Lemma set_beamsize_valid_run (sizeV sizeH : string) (s : session Hw) :
  In sizeV ["V0"; "V1"]%string -> In sizeH ["H0"; "H1"]%string ->
  exists h' : Hw,
    set_beamsize sizeV sizeH s
    = (mk_session h'
         (log s ++ Read (Sig "hdcm.e" "user_readback")
                :: warned (reading (rig s) (Sig "hdcm.e" "user_readback"))
                ++ lens_moves vertical_lenses (vertical_attrs sizeV)
                ++ lens_moves horizontal_lenses (horizontal_attrs sizeH)),
       Done tt).
Proof.
  intros HV HH. destruct s as [h l].
  unfold set_beamsize, get_energy, and_then, get, warned. cbn [rig log].
  destruct HV as [<-|[<-|[]]]; destruct HH as [<-|[<-|[]]];
    destruct (Rlt_dec _ _); cbn; rewrite <- ?app_assoc; eexists; reflexivity.
Qed.

End Beamsize.

Section BeamsizeProperties.

Import Ophyd.

Context {Hw : Type} `{Hardware Hw}.

Lemma filter_command_moves (lenses attrs : list string) :
  filter is_command (lens_moves lenses attrs) = lens_moves lenses attrs.
Proof.
  unfold lens_moves. induction (combine lenses attrs) as [|p l IH]; cbn;
    [reflexivity | now rewrite IH].
Qed.

Lemma filter_command_warned (energy : R) : filter is_command (warned energy) = [].
Proof. unfold warned. destruct (Rlt_dec _ _); reflexivity. Qed.

Lemma attrs_in_or_out (size : string) :
  (List.length (vertical_attrs size) = 4%nat
   /\ Forall (fun a => a = "mv_in" \/ a = "mv_out")%string (vertical_attrs size))
  /\ (List.length (horizontal_attrs size) = 4%nat
      /\ Forall (fun a => a = "mv_in" \/ a = "mv_out")%string
                (horizontal_attrs size)).
Proof.
  unfold vertical_attrs, horizontal_attrs.
  destruct (size =? "V0")%string; destruct (size =? "H0")%string;
    repeat split;
    repeat (apply Forall_cons; [first [now left | now right]|]);
    apply Forall_nil.
Qed.

(** X17.  With valid arguments ('V0' or 'V1', 'H0' or 'H1')
    [set_beamsize] completes and commands each of the eight lenses exactly
    once, the four vertical ones first, each by a move of its [mv_in] or
    its [mv_out] to 1; it issues no other command, whatever the energy. *)
Theorem set_beamsize_one_move_per_lens (sizeV sizeH : string)
    (s : session Hw) :
  In sizeV ["V0"; "V1"]%string -> In sizeH ["H0"; "H1"]%string ->
  exists (s' : session Hw) (attrsV attrsH : list string),
    set_beamsize sizeV sizeH s = (s', Done tt)
    /\ List.length attrsV = 4%nat /\ List.length attrsH = 4%nat
    /\ Forall (fun a => a = "mv_in" \/ a = "mv_out")%string (attrsV ++ attrsH)
    /\ filter is_command (log s')
       = filter is_command (log s)
         ++ lens_moves vertical_lenses attrsV
         ++ lens_moves horizontal_lenses attrsH.
Proof.
  intros HV HH.
  destruct (set_beamsize_valid_run sizeV sizeH s HV HH) as [h' Hrun].
  destruct (attrs_in_or_out sizeV) as [[HlV HfV] _].
  destruct (attrs_in_or_out sizeH) as [_ [HlH HfH]].
  eexists _, (vertical_attrs sizeV), (horizontal_attrs sizeH).
  split; [exact Hrun|]. repeat split; try assumption.
  - apply Forall_app. split; assumption.
  - cbn [log]. rewrite filter_app. f_equal. cbn [filter is_command].
    rewrite !filter_app, filter_command_warned, !filter_command_moves.
    reflexivity.
Qed.

Lemma set_beamsize_invalid_vertical_run (sizeV sizeH : string)
    (s : session Hw) :
  ~ In sizeV ["V0"; "V1"]%string ->
  exists h' : Hw,
    set_beamsize sizeV sizeH s
    = (mk_session h'
         (log s ++ Read (Sig "hdcm.e" "user_readback")
                :: warned (reading (rig s) (Sig "hdcm.e" "user_readback"))
                ++ [Say [PStr "Error: Vertical size argument has to be 'V0' or  'V1'"]]
                ++ (if horizontal_valid sizeH
                    then lens_moves horizontal_lenses (horizontal_attrs sizeH)
                    else [Say [PStr "Error: Horizontal size argument has to be 'H0' or  'H1'"]])),
       Done tt).
Proof.
  intros HV. destruct s as [h l].
  assert (HV0 : (sizeV =? "V0")%string = false).
  { apply String.eqb_neq. intros ->. apply HV. now left. }
  assert (HV1 : (sizeV =? "V1")%string = false).
  { apply String.eqb_neq. intros ->. apply HV. now right; left. }
  unfold set_beamsize, get_energy, and_then, get, warned, horizontal_valid,
    horizontal_attrs.
  cbn [rig log]. rewrite HV0, HV1.
  destruct (sizeH =? "H0")%string; [|destruct (sizeH =? "H1")%string];
    destruct (Rlt_dec _ _); cbn; rewrite <- ?app_assoc; eexists; reflexivity.
Qed.

(** X18.  An invalid vertical argument does not end [set_beamsize]: the
    error is printed and the horizontal argument is still acted on.  With
    a valid horizontal argument the four horizontal lenses are moved and
    no vertical one; with an invalid one the second error is printed and
    nothing is commanded. *)
Theorem set_beamsize_invalid_vertical (sizeV sizeH : string)
    (s : session Hw) :
  ~ In sizeV ["V0"; "V1"]%string ->
  exists s' : session Hw,
    set_beamsize sizeV sizeH s = (s', Done tt)
    /\ In (Say [PStr "Error: Vertical size argument has to be 'V0' or  'V1'"])
          (log s')
    /\ (In sizeH ["H0"; "H1"]%string ->
        filter is_command (log s')
        = filter is_command (log s)
          ++ lens_moves horizontal_lenses (horizontal_attrs sizeH))
    /\ (~ In sizeH ["H0"; "H1"]%string ->
        filter is_command (log s') = filter is_command (log s)
        /\ In (Say [PStr "Error: Horizontal size argument has to be 'H0' or  'H1'"])
              (log s')).
Proof.
  intros HV.
  destruct (set_beamsize_invalid_vertical_run sizeV sizeH s HV) as [h' Hrun].
  eexists. split; [exact Hrun|]. cbn [log]. split; [|split].
  - rewrite in_app_iff. right. right. rewrite !in_app_iff. right. left.
    now left.
  - intros HH. assert (Hb : horizontal_valid sizeH = true).
    { unfold horizontal_valid. destruct HH as [<-|[<-|[]]]; reflexivity. }
    rewrite Hb, filter_app. f_equal. cbn [filter is_command].
    rewrite !filter_app, filter_command_warned, filter_command_moves.
    reflexivity.
  - intros HH. assert (Hb : horizontal_valid sizeH = false).
    { unfold horizontal_valid.
      destruct (String.eqb_spec sizeH "H0") as [->|_]; [exfalso; apply HH; now left|].
      destruct (String.eqb_spec sizeH "H1") as [->|_];
        [exfalso; apply HH; now right; left | reflexivity]. }
    rewrite Hb. split.
    + rewrite filter_app. cbn [filter is_command].
      rewrite !filter_app, filter_command_warned. cbn. now rewrite app_nil_r.
    + rewrite in_app_iff. right. right. rewrite !in_app_iff. right. right.
      now left.
Qed.

End BeamsizeProperties.

Lemma set_beamsize_one_move_per_lens_witness :
  exists (s' : Ophyd.session Script.t) (attrsV attrsH : list string),
    Ophyd.set_beamsize "V1" "H1" (Ophyd.mk_session (Script.constant 12660) [])
    = (s', Ophyd.Done tt)
    /\ List.length attrsV = 4%nat /\ List.length attrsH = 4%nat
    /\ Forall (fun a => a = "mv_in" \/ a = "mv_out")%string (attrsV ++ attrsH)
    /\ filter Ophyd.is_command (Ophyd.log s')
       = [] ++ lens_moves vertical_lenses attrsV
            ++ lens_moves horizontal_lenses attrsH.
Proof.
  apply (set_beamsize_one_move_per_lens "V1" "H1"
           (Ophyd.mk_session (Script.constant 12660) [])).
  - right. now left.
  - right. now left.
Defined.

Lemma set_beamsize_invalid_vertical_witness :
  exists s' : Ophyd.session Script.t,
    Ophyd.set_beamsize "v1" "H1" (Ophyd.mk_session (Script.constant 12660) [])
    = (s', Ophyd.Done tt)
    /\ In (Ophyd.Say [PStr "Error: Vertical size argument has to be 'V0' or  'V1'"])
          (Ophyd.log s')
    /\ filter Ophyd.is_command (Ophyd.log s')
       = lens_moves horizontal_lenses (horizontal_attrs "H1").
Proof.
  destruct (set_beamsize_invalid_vertical "v1" "H1"
              (Ophyd.mk_session (Script.constant 12660) []))
    as (s' & Hrun & Hsay & Hvalid & _).
  - intros [E|[E|[]]]; discriminate E.
  - exists s'. split; [exact Hrun|]. split; [exact Hsay|].
    apply Hvalid. right. now left.
Defined.

Section Attenuator.

Import Ophyd.

Context {Hw : Type} `{Hardware Hw}.

Variables (fuel : nat) (transmission : R) (trans : string) (s : session Hw).

Let e_dcm : R := reading (rig s) (Sig "hdcm.e" "user_readback").

(** The hardware once the three moves are done. *)
Let set_up : Hw :=
  moved (moved (moved (rig s) (Sig trans "energy") e_dcm)
               (Sig trans "transmission") transmission)
        (Sig trans "set_trans") 1.

Let moves : list op :=
  [Move (Sig trans "energy") e_dcm;
   Move (Sig trans "transmission") transmission;
   Move (Sig trans "set_trans") 1].

(** X19.  Outside 5000 - 30000 eV [trans_set] reads the energy, prints
    the message and returns: nothing is moved and the hardware is as it
    was. *)
Theorem trans_set_energy_out_of_range :
  e_dcm < 5000 \/ 30000 < e_dcm ->
  trans_set fuel transmission trans s
  = (mk_session (rig s)
       (log s ++ [Read (Sig "hdcm.e" "user_readback");
                  Say [PStr "Monochromator energy out of range. Must be within 5000 - 30000 eV. Exiting."]]),
     Done tt).
Proof.
  intros He. destruct s as [h l]. unfold e_dcm in He. cbn [rig] in He.
  unfold trans_set, get_energy, and_then, get. cbn [rig log].
  destruct (Rlt_dec _ 5000); destruct (Rlt_dec 30000 _); cbn [orb];
    try lra; unfold say; cbn [rig log]; now rewrite <- app_assoc.
Qed.

Hypothesis in_range : 5000 <= e_dcm <= 30000.

Lemma trans_set_in_range :
  trans_set fuel transmission trans s
  = ((if (trans =? "trans_bcu")%string
      then sleep_on fuel 0.5
      else done tt) ;;
     value <- get (Sig trans "transmission") ;;
     say [PStr "Attenuator = "; PStr trans; PStr ", Transmission set to ";
          PNum value])%plan
      (mk_session set_up (log s ++ Read (Sig "hdcm.e" "user_readback") :: moves)).
Proof.
  destruct s as [h l]. unfold e_dcm, set_up, moves in *. cbn [rig log] in *.
  unfold trans_set, get_energy. unfold and_then at 1. unfold get at 1.
  cbn [rig log].
  destruct (Rlt_dec _ 5000); [lra|]. destruct (Rlt_dec 30000 _); [lra|].
  cbn [orb].
  unfold and_then at 1, mv at 1. cbn [rig log].
  unfold and_then at 1, mv at 1. cbn [rig log].
  unfold and_then at 1, mv at 1. cbn [rig log].
  now rewrite <- !app_assoc.
Qed.

(** X20.  Inside the range, for an attenuator other than [trans_bcu]:
    [trans_set] moves [energy] to the monochromator energy, then
    [transmission] to the value asked for, then [set_trans] to 1, reads the
    transmission back, prints it and returns, without polling. *)
Theorem trans_set_three_moves :
  trans <> "trans_bcu"%string ->
  trans_set fuel transmission trans s
  = (mk_session set_up
       (log s ++ Read (Sig "hdcm.e" "user_readback") :: moves
        ++ [Read (Sig trans "transmission");
            Say [PStr "Attenuator = "; PStr trans;
                 PStr ", Transmission set to ";
                 PNum (reading set_up (Sig trans "transmission"))]]),
     Done tt).
Proof.
  intros Ht. rewrite trans_set_in_range.
  apply String.eqb_neq in Ht. rewrite Ht.
  unfold and_then, done, get, say. cbn [rig log].
  rewrite <- !app_assoc. reflexivity.
Qed.

(** X21.  Inside the range, for [trans_bcu], [trans_set] does not return,
    whatever the hardware does: after the three moves it sleeps 0.5 s for
    as long as it is given fuel, without reading [atten_bcu.done], and never
    reaches the reading and the print that end the call. *)
Theorem trans_set_bcu_never_returns :
  trans = "trans_bcu"%string ->
  trans_set fuel transmission trans s
  = (mk_session (after_sleeps fuel 0.5 set_up)
       (log s ++ Read (Sig "hdcm.e" "user_readback") :: moves
        ++ repeat (Wait 0.5) fuel),
     Running).
Proof.
  intros Ht. rewrite trans_set_in_range.
  assert (Hb : (trans =? "trans_bcu")%string = true) by now apply String.eqb_eq.
  rewrite Hb. unfold and_then at 1. rewrite sleep_on_runs. cbn [rig log].
  now rewrite <- !app_assoc.
Qed.

(** X22.  [trans_set] has no timeout: inside the range, for [trans_bcu],
    if [atten_bcu.done] never reads 1 the call is still polling whatever
    fuel it is given, and the three moves are the commands it has
    issued. *)
Theorem trans_set_bcu_never_done :
  trans = "trans_bcu"%string ->
  (forall m, reading (after_sleeps m 0.5 set_up) (Sig "atten_bcu" "done") <> 1) ->
  snd (trans_set fuel transmission trans s) = Running
  /\ filter is_command (log (fst (trans_set fuel transmission trans s)))
     = filter is_command (log s) ++ moves.
Proof.
  intros Ht _. rewrite trans_set_in_range.
  assert (Hb : (trans =? "trans_bcu")%string = true) by now apply String.eqb_eq.
  rewrite Hb. unfold and_then at 1 3. rewrite sleep_on_runs. cbn [fst snd log].
  split; [reflexivity|].
  assert (Hw0 : forall k, filter is_command (repeat (Wait 0.5) k) = []).
  { induction k; cbn; auto. }
  rewrite !filter_app, Hw0, app_nil_r. cbn [filter is_command app].
  reflexivity.
Qed.

End Attenuator.

Lemma script_after_sleeps (m : nat) (dt : R) (h : Script.t) (sg : Ophyd.signal) :
  Ophyd.reading (Ophyd.after_sleeps m dt h) sg = h m sg.
Proof.
  revert h. induction m as [|m IH]; intros h; [reflexivity|].
  cbn [Ophyd.after_sleeps]. now rewrite IH.
Qed.

Lemma script_constant_reading (v : R) (m : nat) (dt : R) (sg : Ophyd.signal) :
  Ophyd.reading (Ophyd.after_sleeps m dt (Script.constant v)) sg = v.
Proof. now rewrite script_after_sleeps. Qed.

Lemma trans_set_energy_out_of_range_witness :
  Ophyd.trans_set 3 0.5 "trans_bcu" (Ophyd.mk_session (Script.constant 4000) [])
  = (Ophyd.mk_session (Script.constant 4000)
       [Ophyd.Read (Ophyd.Sig "hdcm.e" "user_readback");
        Ophyd.Say [PStr "Monochromator energy out of range. Must be within 5000 - 30000 eV. Exiting."]],
     Ophyd.Done tt).
Proof.
  apply (trans_set_energy_out_of_range 3 0.5 "trans_bcu"
           (Ophyd.mk_session (Script.constant 4000) [])).
  left. cbn. unfold Script.constant. lra.
Defined.

Lemma trans_set_three_moves_witness :
  snd (Ophyd.trans_set 0 0.5 "trans_rie"
         (Ophyd.mk_session (Script.constant 12660) []))
  = Ophyd.Done tt.
Proof.
  rewrite (trans_set_three_moves 0 0.5 "trans_rie"
             (Ophyd.mk_session (Script.constant 12660) [])).
  - reflexivity.
  - cbn. unfold Script.constant. lra.
  - discriminate.
Defined.

Lemma trans_set_bcu_never_returns_witness :
  snd (Ophyd.trans_set 5 0.5 "trans_bcu"
         (Ophyd.mk_session
            (Script.switch (Ophyd.Sig "atten_bcu" "done") 2 0 1 12660) []))
  = Ophyd.Running.
Proof.
  set (s := Ophyd.mk_session
              (Script.switch (Ophyd.Sig "atten_bcu" "done") 2 0 1 12660) []).
  assert (Hrange : 5000 <= Ophyd.reading (Ophyd.rig s)
                             (Ophyd.Sig "hdcm.e" "user_readback") <= 30000).
  { cbn. unfold Script.switch. cbn. lra. }
  now rewrite (trans_set_bcu_never_returns 5 0.5 "trans_bcu" s Hrange eq_refl).
Defined.

Lemma trans_set_bcu_never_done_witness :
  snd (Ophyd.trans_set 7 0.5 "trans_bcu"
         (Ophyd.mk_session (Script.constant 12660) []))
  = Ophyd.Running.
Proof.
  set (s := Ophyd.mk_session (Script.constant 12660) []).
  assert (Hrange : 5000 <= Ophyd.reading (Ophyd.rig s)
                             (Ophyd.Sig "hdcm.e" "user_readback") <= 30000).
  { cbn. unfold Script.constant. lra. }
  apply (trans_set_bcu_never_done 7 0.5 "trans_bcu" s Hrange eq_refl).
  intros m. unfold s. cbn [Ophyd.moved Script.hardware Ophyd.rig].
  rewrite script_constant_reading. lra.
Defined.

Section DetectorCover.

Import Ophyd.

Context {Hw : Type} `{Hardware Hw}.

Variables (fuel : nat) (s : session Hw).

Let status : signal := Sig "cover_detector" "status".
Let closing : Hw := moved (rig s) (Sig "cover_detector" "close") 1.
Let opening : Hw := moved (rig s) (Sig "cover_detector" "open") 1.

(** X23.  [detectorCoverClose] moves [cover_detector.close] to 1 and then
    polls the status every 0.5 s while it reads 1.  When the [n]-th test is
    the first to read something else, the call has slept [n] times and
    returns; the move is its only command. *)
Theorem detectorCoverClose_waits (n : nat) :
  (n < fuel)%nat ->
  (forall m, (m < n)%nat -> reading (after_sleeps m 0.5 closing) status = 1) ->
  reading (after_sleeps n 0.5 closing) status <> 1 ->
  detectorCoverClose fuel s
  = (mk_session (after_sleeps n 0.5 closing)
       (log s ++ Move (Sig "cover_detector" "close") 1 :: polls n status 0.5),
     Done tt).
Proof.
  intros Hn Hbefore Hat. destruct s as [h l].
  unfold detectorCoverClose. unfold and_then at 1, mv at 1. cbn [rig log].
  unfold and_then at 1.
  rewrite (poll_leaves _ _ _ n); cbn [rig log]; try assumption.
  - unfold done. now rewrite <- app_assoc.
  - intros m Hm. specialize (Hbefore m Hm). unfold closing in Hbefore.
    cbn [rig] in Hbefore. unfold status in Hbefore. rewrite Hbefore.
    unfold eq_1. destruct (Req_dec_T 1 1); [reflexivity | lra].
  - unfold eq_1. destruct (Req_dec_T _ 1); [contradiction | reflexivity].
Qed.

(** X24.  [detectorCoverOpen] moves [cover_detector.open] to 1 and then
    polls the status every 0.5 s until it reads 1.  When the [n]-th test is
    the first to read 1, the call has slept [n] times and returns. *)
Theorem detectorCoverOpen_waits (n : nat) :
  (n < fuel)%nat ->
  (forall m, (m < n)%nat -> reading (after_sleeps m 0.5 opening) status <> 1) ->
  reading (after_sleeps n 0.5 opening) status = 1 ->
  detectorCoverOpen fuel s
  = (mk_session (after_sleeps n 0.5 opening)
       (log s ++ Move (Sig "cover_detector" "open") 1 :: polls n status 0.5),
     Done tt).
Proof.
  intros Hn Hbefore Hat. destruct s as [h l].
  unfold detectorCoverOpen. unfold and_then at 1, mv at 1. cbn [rig log].
  unfold and_then at 1.
  rewrite (poll_leaves _ _ _ n); cbn [rig log]; try assumption.
  - unfold done. now rewrite <- app_assoc.
  - intros m Hm. specialize (Hbefore m Hm). unfold ne_1, eq_1.
    destruct (Req_dec_T _ 1); [contradiction | reflexivity].
  - unfold opening in Hat. cbn [rig] in Hat. unfold status in Hat.
    unfold ne_1, eq_1. rewrite Hat.
    destruct (Req_dec_T 1 1); [reflexivity | lra].
Qed.

(** X25.  Neither cover macro has a timeout: if the status keeps reading
    1 after the close command, [detectorCoverClose] is still polling
    whatever fuel it is given; likewise [detectorCoverOpen] if the status
    never reads 1. *)
Theorem detector_cover_no_timeout :
  ((forall m, reading (after_sleeps m 0.5 closing) status = 1) ->
   snd (detectorCoverClose fuel s) = Running)
  /\ ((forall m, reading (after_sleeps m 0.5 opening) status <> 1) ->
      snd (detectorCoverOpen fuel s) = Running).
Proof.
  destruct s as [h l]. unfold closing, opening, status. cbn [rig]. split.
  - intros Hall. unfold detectorCoverClose. unfold and_then at 1, mv at 1.
    cbn [rig log]. unfold and_then at 1.
    set (s1 := mk_session _ _).
    pose proof (poll_runs_on (Sig "cover_detector" "status") eq_1 0.5 fuel s1)
      as Hrun.
    destruct (poll fuel _ _ _ s1) as [s2 [[]|]]; cbn [snd] in *; [|reflexivity].
    assert (Habs : @Done unit tt = Running); [|discriminate Habs].
    apply Hrun. intros m. unfold s1. cbn [rig]. rewrite Hall.
    unfold eq_1. destruct (Req_dec_T 1 1); [reflexivity | lra].
  - intros Hall. unfold detectorCoverOpen. unfold and_then at 1, mv at 1.
    cbn [rig log]. unfold and_then at 1.
    set (s1 := mk_session _ _).
    pose proof (poll_runs_on (Sig "cover_detector" "status") ne_1 0.5 fuel s1)
      as Hrun.
    destruct (poll fuel _ _ _ s1) as [s2 [[]|]]; cbn [snd] in *; [|reflexivity].
    assert (Habs : @Done unit tt = Running); [|discriminate Habs].
    apply Hrun. intros m. unfold s1. cbn [rig].
    specialize (Hall m). unfold ne_1, eq_1.
    destruct (Req_dec_T _ 1); [contradiction | reflexivity].
Qed.

End DetectorCover.

Lemma detectorCoverClose_waits_witness :
  Ophyd.detectorCoverClose 10
    (Ophyd.mk_session
       (Script.switch (Ophyd.Sig "cover_detector" "status") 3 1 0 0) [])
  = (Ophyd.mk_session
       (Ophyd.after_sleeps 3 0.5
          (Script.switch (Ophyd.Sig "cover_detector" "status") 3 1 0 0))
       (Ophyd.Move (Ophyd.Sig "cover_detector" "close") 1
        :: Ophyd.polls 3 (Ophyd.Sig "cover_detector" "status") 0.5),
     Ophyd.Done tt).
Proof.
  apply (detectorCoverClose_waits 10
           (Ophyd.mk_session
              (Script.switch (Ophyd.Sig "cover_detector" "status") 3 1 0 0) [])
           3 ltac:(lia)).
  - intros m Hm. cbn [Ophyd.moved Script.hardware Ophyd.rig].
    rewrite script_after_sleeps. unfold Script.switch. cbn.
    destruct m as [|[|[|m]]]; cbn; try reflexivity. lia.
  - cbn [Ophyd.moved Script.hardware Ophyd.rig].
    rewrite script_after_sleeps. unfold Script.switch. cbn. lra.
Defined.

Lemma detectorCoverOpen_waits_witness :
  Ophyd.detectorCoverOpen 10
    (Ophyd.mk_session
       (Script.switch (Ophyd.Sig "cover_detector" "status") 2 0 1 0) [])
  = (Ophyd.mk_session
       (Ophyd.after_sleeps 2 0.5
          (Script.switch (Ophyd.Sig "cover_detector" "status") 2 0 1 0))
       (Ophyd.Move (Ophyd.Sig "cover_detector" "open") 1
        :: Ophyd.polls 2 (Ophyd.Sig "cover_detector" "status") 0.5),
     Ophyd.Done tt).
Proof.
  apply (detectorCoverOpen_waits 10
           (Ophyd.mk_session
              (Script.switch (Ophyd.Sig "cover_detector" "status") 2 0 1 0) [])
           2 ltac:(lia)).
  - intros m Hm. cbn [Ophyd.moved Script.hardware Ophyd.rig].
    rewrite script_after_sleeps. unfold Script.switch. cbn.
    destruct m as [|[|m]]; cbn; try lra. lia.
  - cbn [Ophyd.moved Script.hardware Ophyd.rig].
    rewrite script_after_sleeps. reflexivity.
Defined.

Lemma detector_cover_no_timeout_witness :
  snd (Ophyd.detectorCoverClose 25 (Ophyd.mk_session (Script.constant 1) []))
  = Ophyd.Running
  /\ snd (Ophyd.detectorCoverOpen 25 (Ophyd.mk_session (Script.constant 0) []))
     = Ophyd.Running.
Proof.
  split.
  - apply (proj1 (detector_cover_no_timeout 25
                    (Ophyd.mk_session (Script.constant 1) []))).
    intros m. cbn [Ophyd.moved Script.hardware Ophyd.rig].
    apply script_constant_reading.
  - apply (proj2 (detector_cover_no_timeout 25
                    (Ophyd.mk_session (Script.constant 0) []))).
    intros m. cbn [Ophyd.moved Script.hardware Ophyd.rig].
    rewrite script_constant_reading. lra.
Defined.

Section Anneal.

Import Ophyd.

Context {Hw : Type} `{Hardware Hw}.

Variables (fuel : nat) (t : R) (s : session Hw).

Let air : signal := Sig "annealer" "air".
Let inStatus : signal := Sig "annealer" "inStatus".
Let outStatus : signal := Sig "annealer" "outStatus".

(** X26.  Outside governor state SA [anneal] prints the message and
    returns -1: the governor is not switched and the paddle is not
    touched. *)
Theorem anneal_not_in_SA :
  gov_status (rig s) "SA" = false ->
  anneal fuel t s
  = (mk_session (rig s)
       (log s ++ [GovStatusGet "SA";
                  Say [PStr "Not in Governor state SA, exiting"]]),
     Done (Some (-1)%Z)).
Proof.
  intros Hgov. destruct s as [h l]. cbn [rig] in Hgov.
  unfold anneal, and_then, govStatusGet. cbn [rig log]. rewrite Hgov.
  cbn [negb]. unfold say, done. cbn [rig log]. now rewrite <- app_assoc.
Qed.

Hypothesis in_SA : gov_status (rig s) "SA" = true.

(** The hardware once the paddle has been sent in. *)
Let inserting : Hw := written (gov_set (rig s) "CB") air 1.

Lemma anneal_in_SA :
  anneal fuel t s
  = (poll fuel inStatus falsy 0.1 ;;
     sleep t ;;
     put air 0 ;;
     poll fuel outStatus falsy 0.1 ;;
     govStateSet "SA" ;;
     done None)%plan
      (mk_session inserting
         (log s ++ [GovStatusGet "SA"; GovStateSet "CB"; Write air 1])).
Proof.
  destruct s as [h l]. unfold inserting. cbn [rig log] in *.
  unfold anneal. unfold and_then at 1, govStatusGet at 1. cbn [rig log].
  rewrite in_SA. cbn [negb].
  unfold and_then at 1, govStateSet at 1. cbn [rig log].
  unfold and_then at 1, put at 1. cbn [rig log].
  now rewrite <- !app_assoc.
Qed.

(** X27.  From state SA and for a duration [t] that [time.sleep] accepts,
    a complete cycle: [anneal] switches the governor to CB, turns the air
    on, polls [inStatus] every 0.1 s, keeps the paddle in for [t] seconds
    once it is in, turns the air off, polls [outStatus], switches the
    governor back to SA and returns. *)
Theorem anneal_cycle (n m : nat) :
  sleepable t ->
  (n < fuel)%nat -> (m < fuel)%nat ->
  (forall k, (k < n)%nat -> reading (after_sleeps k 0.1 inserting) inStatus = 0) ->
  reading (after_sleeps n 0.1 inserting) inStatus <> 0 ->
  let retracting := written (elapsed (after_sleeps n 0.1 inserting) t) air 0 in
  (forall k, (k < m)%nat -> reading (after_sleeps k 0.1 retracting) outStatus = 0) ->
  reading (after_sleeps m 0.1 retracting) outStatus <> 0 ->
  anneal fuel t s
  = (mk_session (gov_set (after_sleeps m 0.1 retracting) "SA")
       (log s
        ++ [GovStatusGet "SA"; GovStateSet "CB"; Write air 1]
        ++ polls n inStatus 0.1
        ++ [Wait t; Write air 0]
        ++ polls m outStatus 0.1
        ++ [GovStateSet "SA"]),
     Done None).
Proof.
  intros _ Hn Hm Hin_before Hin_at retracting Hout_before Hout_at.
  assert (Hz : forall v, v = 0 -> falsy v = true).
  { intros v ->. unfold falsy. destruct (Req_dec_T 0 0); [reflexivity | lra]. }
  assert (Hnz : forall v, v <> 0 -> falsy v = false).
  { intros v Hv. unfold falsy. destruct (Req_dec_T v 0); [contradiction|].
    reflexivity. }
  rewrite anneal_in_SA. unfold and_then at 1.
  rewrite (poll_leaves _ _ _ n); cbn [rig log]; auto.
  unfold and_then at 1, sleep at 1. cbn [rig log].
  unfold and_then at 1, put at 1. cbn [rig log]. fold retracting.
  unfold and_then at 1.
  rewrite (poll_leaves _ _ _ m); cbn [rig log]; auto.
  unfold and_then, govStateSet, done. cbn [rig log].
  now rewrite <- !app_assoc.
Qed.

(** The rest of [anneal] once the air is on, loop by loop. *)
Lemma anneal_after_insertion (s1 : session Hw) :
  (poll fuel inStatus falsy 0.1 ;;
   sleep t ;;
   put air 0 ;;
   poll fuel outStatus falsy 0.1 ;;
   govStateSet "SA" ;;
   done None)%plan s1
  = match poll fuel inStatus falsy 0.1 s1 with
    | (s2, Running) => (s2, Running)
    | (s2, Done _) =>
        match poll fuel outStatus falsy 0.1
                (mk_session (written (elapsed (rig s2) t) air 0)
                            (log s2 ++ [Wait t; Write air 0])) with
        | (s4, Running) => (s4, Running)
        | (s4, Done _) =>
            (mk_session (gov_set (rig s4) "SA") (log s4 ++ [GovStateSet "SA"]),
             Done (@None Z))
        end
    end.
Proof.
  unfold and_then at 1.
  destruct (poll fuel inStatus falsy 0.1 s1) as [s2 [[]|]]; [|reflexivity].
  unfold and_then at 1, sleep at 1. cbn [rig log].
  unfold and_then at 1, put at 1. cbn [rig log]. rewrite <- app_assoc.
  cbn [app]. unfold and_then at 1.
  destruct (poll fuel outStatus falsy 0.1 _) as [s4 [[]|]]; reflexivity.
Qed.

(** X28.  What [anneal] has commanded when it stops, from state SA, for a
    duration [t] that [time.sleep] accepts and for any behaviour of the
    hardware: if it returns, it returns [None] after CB, air on, air off,
    SA, in this order; if it does not return, it is polling with the
    governor left in CB, the air either still on or already off. *)
Theorem anneal_commands :
  sleepable t ->
  let commands := filter is_command (log (fst (anneal fuel t s))) in
  (snd (anneal fuel t s) = Done None
   /\ commands = filter is_command (log s)
                 ++ [GovStateSet "CB"; Write air 1; Write air 0;
                     GovStateSet "SA"])
  \/ (snd (anneal fuel t s) = Running
      /\ (commands = filter is_command (log s)
                     ++ [GovStateSet "CB"; Write air 1]
          \/ commands = filter is_command (log s)
                        ++ [GovStateSet "CB"; Write air 1; Write air 0])).
Proof.
  intros _. cbv zeta. rewrite anneal_in_SA, anneal_after_insertion.
  set (s1 := mk_session inserting _).
  assert (H1 : filter is_command (log s1)
               = filter is_command (log s) ++ [GovStateSet "CB"; Write air 1]).
  { unfold s1. cbn [log]. rewrite filter_app. reflexivity. }
  pose proof (poll_commands inStatus falsy 0.1 fuel s1) as Hc1.
  destruct (poll fuel inStatus falsy 0.1 s1) as [s2 [[]|]]; cbn [fst snd] in Hc1.
  2:{ right. cbn [fst snd]. split; [reflexivity|]. left. now rewrite Hc1. }
  set (s3 := mk_session _ _).
  assert (H3 : filter is_command (log s3)
               = filter is_command (log s)
                 ++ [GovStateSet "CB"; Write air 1; Write air 0]).
  { unfold s3. cbn [log]. rewrite !filter_app, Hc1, H1. cbn.
    now rewrite <- app_assoc. }
  pose proof (poll_commands outStatus falsy 0.1 fuel s3) as Hc3.
  destruct (poll fuel outStatus falsy 0.1 s3) as [s4 [[]|]]; cbn [fst snd] in Hc3.
  2:{ right. cbn [fst snd]. split; [reflexivity|]. right. now rewrite Hc3. }
  left. cbn [rig log fst snd]. split; [reflexivity|].
  rewrite filter_app, Hc3, H3. cbn. now rewrite <- app_assoc.
Qed.

End Anneal.

Lemma anneal_not_in_SA_witness :
  Ophyd.anneal 5 1.0 (Ophyd.mk_session (Script.constant 0) [])
  = (Ophyd.mk_session (Script.constant 0)
       [Ophyd.GovStatusGet "SA";
        Ophyd.Say [PStr "Not in Governor state SA, exiting"]],
     Ophyd.Done (Some (-1)%Z)).
Proof.
  apply (anneal_not_in_SA 5 1.0 (Ophyd.mk_session (Script.constant 0) [])).
  cbn. unfold Ophyd.falsy, Script.constant.
  destruct (Req_dec_T 0 0); [reflexivity | lra].
Defined.

Lemma script_in_SA (h : Script.t) :
  h O (Ophyd.Sig "governor" "SA") = 1 -> Ophyd.gov_status h "SA" = true.
Proof.
  intros Hh. cbn. rewrite Hh. unfold Ophyd.falsy.
  destruct (Req_dec_T 1 0); [lra | reflexivity].
Qed.

Lemma anneal_cycle_witness :
  exists s' : Ophyd.session Script.t,
    Ophyd.anneal 10 1.0 (Ophyd.mk_session (Script.annealer 2 4) [])
    = (s', Ophyd.Done None)
    /\ filter (fun o => match o with Ophyd.Wait _ => true | _ => false end)
              (Ophyd.log s')
       = [Ophyd.Wait 0.1; Ophyd.Wait 0.1; Ophyd.Wait 1.0; Ophyd.Wait 0.1].
Proof.
  set (s := Ophyd.mk_session (Script.annealer 2 4) []).
  assert (HSA : Ophyd.gov_status (Ophyd.rig s) "SA" = true)
    by (apply script_in_SA; reflexivity).
  assert (Ht : Ophyd.sleepable 1.0) by (unfold Ophyd.sleepable; lra).
  eexists. split.
  - apply (anneal_cycle 10 1.0 s HSA 2 1 Ht ltac:(lia) ltac:(lia)).
    + intros k Hk. unfold s.
      cbn [Ophyd.written Ophyd.gov_set Script.hardware Ophyd.rig].
      rewrite script_after_sleeps. unfold Script.annealer. cbn.
      destruct k as [|[|k]]; cbn; try reflexivity. lia.
    + unfold s. cbn [Ophyd.written Ophyd.gov_set Script.hardware Ophyd.rig].
      rewrite script_after_sleeps. unfold Script.annealer. cbn. lra.
    + intros k Hk. unfold s.
      cbn [Ophyd.written Ophyd.gov_set Ophyd.elapsed Script.hardware Ophyd.rig].
      rewrite script_after_sleeps.
      assert (k = 0%nat) as -> by lia.
      change (Ophyd.after_sleeps 2 0.1 (Script.annealer 2 4) 1%nat
                (Ophyd.Sig "annealer" "outStatus") = 0).
      pose proof (script_after_sleeps 2 0.1 (fun n => Script.annealer 2 4 (S n))
                    (Ophyd.Sig "annealer" "outStatus")) as E.
      cbn in E. cbn. exact E.
    + unfold s.
      cbn [Ophyd.written Ophyd.gov_set Ophyd.elapsed Script.hardware Ophyd.rig].
      rewrite script_after_sleeps.
      change (Ophyd.after_sleeps 2 0.1 (Script.annealer 2 4) 2%nat
                (Ophyd.Sig "annealer" "outStatus") <> 0).
      cbn. unfold Script.annealer. cbn. lra.
  - reflexivity.
Defined.

Lemma anneal_commands_witness :
  let s := Ophyd.mk_session (Script.constant 1) [] in
  let commands :=
    filter Ophyd.is_command (Ophyd.log (fst (Ophyd.anneal 3 1.0 s))) in
  (snd (Ophyd.anneal 3 1.0 s) = Ophyd.Done None
   /\ commands = [Ophyd.GovStateSet "CB";
                  Ophyd.Write (Ophyd.Sig "annealer" "air") 1;
                  Ophyd.Write (Ophyd.Sig "annealer" "air") 0;
                  Ophyd.GovStateSet "SA"])
  \/ (snd (Ophyd.anneal 3 1.0 s) = Ophyd.Running
      /\ (commands = [Ophyd.GovStateSet "CB";
                      Ophyd.Write (Ophyd.Sig "annealer" "air") 1]
          \/ commands = [Ophyd.GovStateSet "CB";
                         Ophyd.Write (Ophyd.Sig "annealer" "air") 1;
                         Ophyd.Write (Ophyd.Sig "annealer" "air") 0])).
Proof.
  apply (anneal_commands 3 1.0 (Ophyd.mk_session (Script.constant 1) [])).
  - apply script_in_SA. reflexivity.
  - unfold Ophyd.sleepable. lra.
Defined.
